(** * Overlay registry, popover placement and pager release of react-native-ui-kitten

    A shallow embedding of
    - [src/framework/theme/modal/modalPanel.component.tsx] (the presenter),
    - [modal.service.ts] (the process-wide registry [ModalService]),
    - [src/framework/ui/popover/popover.component.tsx] (the popover trigger),
    - the view pager's release handler,
    followed by the properties established about them. *)

From Stdlib Require Import NArith ZArith QArith Qabs Ascii String.
From stdpp Require Import base decidable option list strings functions gmap.

Local Open Scope string_scope.
Local Open Scope list_scope.

(** ** JavaScript [Map] with string keys

    A [Map] iterates in the order in which its keys were first inserted;
    [set] on a key that is present replaces the value where it stands,
    [delete] removes the entry and is silent when there is none.  Order
    matters here (it is the stacking order of the modals), so the map is an
    association list. *)
Module JsMap.
Abbreviation t V := (list (string * V)).

Section WithValues.
Context {V : Type}.
Local Abbreviation t := (t V).

Definition empty : t := [].

Fixpoint set (k : string) (v : V) (m : t) : t :=
  match m with
  | [] => [(k, v)]
  | (k', v') :: m' =>
      if decide (k' = k) then (k, v) :: m' else (k', v') :: set k v m'
  end.

(** The argument of [delete] is whatever the caller holds: a string, or
    [undefined] ([None]), which is the key of no entry. *)
Definition delete (k : option string) (m : t) : t :=
  filter (fun e : string * V => Some (fst e) <> k) m.

Definition keys (m : t) : list string := map fst m.
Definition values (m : t) : list V := map snd m.
Definition size (m : t) : nat := length m.
End WithValues.
End JsMap.

(** ** [Math.random()] and [Number.prototype.toString(36)]

    [Math.random()] is the environment's choice of a double in [0, 1).  Such
    a double is written [n / 2^53] with [n < 2^53]; the generator is an
    infinite tape of numerators, read modulo [2^53], and a reading
    position. *)
Definition RANDOM_DENOMINATOR : N := 2 ^ 53.

Record Prng : Type := { outputs : nat -> N; cursor : nat }.

Definition Math_random (g : Prng) : N * Prng :=
  ((outputs g (cursor g) mod RANDOM_DENOMINATOR)%N,
   {| outputs := outputs g; cursor := S (cursor g) |}).

Definition digit36 (d : N) : ascii :=
  if (d <? 10)%N then ascii_of_N (48 + d) else ascii_of_N (87 + d).

(** Digits of [num / 2^53] in radix 36, most significant first.  The
    expansion of a dyadic fraction with 53 binary places ends after at most
    27 places of radix 36.  An engine prints the shortest digits that still
    read back as the same double, so on most draws it prints fewer digits
    than this function does; the two agree where the whole expansion is
    short (0, 1/2 = 0.i, 1/4 = 0.9, 1/8 = 0.4i).  Nothing below relies on
    the spelling of a key for any other draw: the statements about all
    generators only use that the key is a function of the draw. *)
Fixpoint fraction36 (fuel : nat) (num : N) : string :=
  match fuel with
  | O => ""
  | S fuel' =>
      if (num =? 0)%N then ""
      else
        let scaled := (num * 36)%N in
        String (digit36 (scaled / RANDOM_DENOMINATOR))
               (fraction36 fuel' (scaled mod RANDOM_DENOMINATOR))
  end.

Definition toString36 (num : N) : string :=
  if (num =? 0)%N then "0" else "0." ++ fraction36 27 num.

(** [s.substring(start)]: the characters from [start] to the end, the empty
    string when [s] is shorter. *)
Fixpoint substring_from (start : nat) (s : string) : string :=
  match start, s with
  | O, _ => s
  | S _, EmptyString => EmptyString
  | S start', String _ s' => substring_from start' s'
  end.

(** ** React elements and the presenting configuration *)

(** [() => void] callbacks are opaque; a name tells them apart. *)
Definition Callback : Type := nat.

(** The style keys this code reads or writes; an absent key is [None]. *)
Record ViewStyle : Type :=
  { style_position : option string;
    style_left : option Q;
    style_top : option Q;
    style_opacity : option Q }.

(** The render payload is opaque to the registry: a component name, and the
    style override that [React.cloneElement] may have put on it. *)
Record ReactElement : Type :=
  { elementName : string; style : option ViewStyle }.

Definition cloneElement (e : ReactElement) (s : ViewStyle) : ReactElement :=
  {| elementName := elementName e; style := Some s |}.

Record ModalPresentingConfig : Type :=
  { allowBackdrop : bool; onBackdropPress : Callback }.

(** [interface ModalPresenting].  A method runs on the receiver's own fields
    and on the random generator, the only global it may touch.  [hide] takes
    what the caller hands over: a string or [undefined]. *)
Class ModalPresenting (P : Type) : Type :=
  { presenting_show :
      ReactElement -> ModalPresentingConfig -> P -> Prng -> string * P * Prng;
    presenting_hide : option string -> P -> string * P }.

(** ** [ModalPanel] *)
Module ModalPanel.

(** [interface ModalPanelChild extends ModalPresentingConfig]. *)
Record ModalPanelChild : Type :=
  { child_allowBackdrop : bool;
    child_onBackdropPress : Callback;
    element : ReactElement }.

Record ModalPanelState : Type :=
  { components : JsMap.t ModalPanelChild }.

(** [public state = { components: new Map() }]. *)
Definition initial : ModalPanelState := {| components := JsMap.empty |}.

(** [{ ...config, element }]. *)
Definition spread (config : ModalPresentingConfig) (e : ReactElement)
  : ModalPanelChild :=
  {| child_allowBackdrop := allowBackdrop config;
     child_onBackdropPress := onBackdropPress config;
     element := e |}.

(** [Math.random().toString(36).substring(2)]. *)
Definition generateUniqueComponentKey (g : Prng) : string * Prng :=
  let (r, g') := Math_random g in
  (substring_from 2 (toString36 r), g').

Definition hide (identifier : option string) (this : ModalPanelState)
  : string * ModalPanelState :=
  let components := JsMap.delete identifier (components this) in
  ("", {| components := components |}).

Definition show (e : ReactElement) (config : ModalPresentingConfig)
    (this : ModalPanelState) (g : Prng) : string * ModalPanelState * Prng :=
  let (key, g') := generateUniqueComponentKey g in
  let components := JsMap.set key (spread config e) (components this) in
  (key, {| components := components |}, g').

Definition areThereAnyComponents (this : ModalPanelState) : bool :=
  negb (Nat.eqb (JsMap.size (components this)) 0).

(** What [renderModal] builds for one entry: a [ModalResolver] with the
    React key [index], wrapping the entry's element. *)
Record ModalResolver : Type :=
  { resolver_key : nat;
    resolver_visible : bool;
    resolver_allowBackdrop : bool;
    resolver_onBackdropPress : Callback;
    resolver_child : ReactElement }.

Definition renderModal (config : ModalPanelChild) (index : nat)
  : ModalResolver :=
  {| resolver_key := index;
     resolver_visible := true;
     resolver_allowBackdrop := child_allowBackdrop config;
     resolver_onBackdropPress := child_onBackdropPress config;
     resolver_child := element config |}.

(** [Array.prototype.map] hands each callback the element and its index. *)
Fixpoint map_indexed {A B : Type} (f : A -> nat -> B) (from : nat)
    (l : list A) : list B :=
  match l with
  | [] => []
  | x :: l' => f x from :: map_indexed f (S from) l'
  end.

(** [Array.from(this.state.components.values()).map(this.renderModal)];
    siblings later in the array are drawn over earlier ones. *)
Definition renderModals (this : ModalPanelState) : list ModalResolver :=
  map_indexed renderModal 0 (JsMap.values (components this)).

End ModalPanel.

#[export] Instance ModalPanel_presenting
  : ModalPresenting ModalPanel.ModalPanelState :=
  {| presenting_show := ModalPanel.show;
     presenting_hide := ModalPanel.hide |}.

(** ** The world the registry lives in

    [ModalService] is one object per process holding a reference to the
    presenter mounted last.  Presenters are objects on a heap, named by
    references; a method call on a reference runs the method on the object
    it names and stores the object back. *)
Definition ref : Type := nat.

(** [class ModalServiceType { panel: ModalPresenting | null = null }]. *)
Record ModalServiceType : Type := { panel : option ref }.

(** Observation only (the code keeps no such list): the calls made on
    presenters, oldest first. *)
Inductive Invocation : Type :=
| InvokeShow (receiver : ref) (e : ReactElement) (config : ModalPresentingConfig)
| InvokeHide (receiver : ref) (identifier : option string).

Definition receiver_of (i : Invocation) : ref :=
  match i with
  | InvokeShow r _ _ => r
  | InvokeHide r _ => r
  end.

Definition is_show (i : Invocation) : bool :=
  match i with
  | InvokeShow _ _ _ => true
  | InvokeHide _ _ => false
  end.

Inductive JsError : Type := TypeError (message : string).

Section Runtime.
Context {P : Type}.

Record World : Type :=
  { service : ModalServiceType;
    objects : ref -> P;
    random : Prng;
    invocations : list Invocation }.

(** A call either returns a value or throws; both leave a world behind. *)
Inductive Outcome (A : Type) : Type :=
| Returned (a : A) (w : World)
| Thrown (e : JsError) (w : World).

Definition M (A : Type) : Type := World -> Outcome A.

Definition ret {A : Type} (a : A) : M A := fun w => Returned A a w.

Definition bind {A B : Type} (m : M A) (k : A -> M B) : M B :=
  fun w =>
    match m w with
    | Returned _ a w' => k a w'
    | Thrown _ e w' => Thrown B e w'
    end.

Definition throw {A : Type} (e : JsError) : M A := fun w => Thrown A e w.

Definition returned {A : Type} (o : Outcome A) : option A :=
  match o with
  | Returned _ a _ => Some a
  | Thrown _ _ _ => None
  end.

(** [this.panel] read and written on the singleton. *)
Definition read_panel : M (option ref) :=
  fun w => Returned _ (panel (service w)) w.

Definition write_panel (p : option ref) : M unit :=
  fun w =>
    Returned _ tt
      {| service := {| panel := p |};
         objects := objects w;
         random := random w;
         invocations := invocations w |}.

Context `{!ModalPresenting P}.

(** [receiver.show(element, config)]; a member call on [null] throws. *)
Definition member_show (receiver : option ref) (e : ReactElement)
    (config : ModalPresentingConfig) : M string :=
  match receiver with
  | None => throw (TypeError "Cannot read property 'show' of null")
  | Some r =>
      fun w =>
        let '(identifier, obj, g) :=
          presenting_show e config (objects w r) (random w) in
        Returned _ identifier
          {| service := service w;
             objects := <[r := obj]> (objects w);
             random := g;
             invocations := invocations w ++ [InvokeShow r e config] |}
  end.

(** [receiver.hide(identifier)]. *)
Definition member_hide (receiver : option ref) (identifier : option string)
  : M string :=
  match receiver with
  | None => throw (TypeError "Cannot read property 'hide' of null")
  | Some r =>
      fun w =>
        let '(result, obj) := presenting_hide identifier (objects w r) in
        Returned _ result
          {| service := service w;
             objects := <[r := obj]> (objects w);
             random := random w;
             invocations := invocations w ++ [InvokeHide r identifier] |}
  end.
End Runtime.

Arguments World : clear implicits.
Arguments Outcome : clear implicits.
Arguments M : clear implicits.
Arguments Returned {P A} a w.
Arguments Thrown {P A} e w.

Notation "'let*' x ':=' m 'in' k" := (bind m (fun x => k))
  (at level 10, x name, m at level 100, k at level 200).

(** JavaScript truthiness of [this.panel]: an object is truthy, [null] is
    not. *)
Definition truthy {A : Type} (o : option A) : bool :=
  match o with
  | Some _ => true
  | None => false
  end.

(** ** [ModalServiceType]: the singleton's methods.  A call that falls off
    the end of the method returns [undefined] ([None]). *)
Module ModalService.
Section WithPresenter.
Context {P : Type} `{!ModalPresenting P}.

Definition mount (panel : option ref) : M P unit := write_panel panel.

Definition unmount : M P unit := write_panel None.

Definition show (e : ReactElement) (config : ModalPresentingConfig)
  : M P (option string) :=
  let* panel := read_panel in
  if truthy panel then
    let* identifier := member_show panel e config in
    ret (Some identifier)
  else ret None.

Definition hide (identifier : option string) : M P (option string) :=
  let* panel := read_panel in
  if truthy panel then
    let* result := member_hide panel identifier in
    ret (Some result)
  else ret None.
End WithPresenter.
End ModalService.

(** [ModalPanel]'s life-cycle hooks, run on the instance at reference
    [this]. *)
Definition componentDidMount {P : Type} (this : ref) : M P unit :=
  ModalService.mount (Some this).

Definition componentWillUnmount {P : Type} (this : ref) : M P unit :=
  ModalService.unmount.

(** ** Popover placement ([./type], not among the sources) *)

Module Geometry.
Record Point : Type := { x : Q; y : Q }.
Record Size : Type := { width : Q; height : Q }.

(** [Frame]: the popover reads [frame.origin.x] and [frame.origin.y]. *)
Record Frame : Type := { origin : Point; size : Size }.
End Geometry.
Abbreviation Frame := Geometry.Frame.

Inductive Side : Type := Top | Bottom | Left | Right.
Inductive Alignment : Type := AlignNone | AlignStart | AlignEnd.

#[export] Instance Side_eq_dec : EqDecision Side.
Proof. solve_decision. Defined.
#[export] Instance Alignment_eq_dec : EqDecision Alignment.
Proof. solve_decision. Defined.

(** Modelled from the spec: [PopoverPlacement] of popover/type.ts, which is
    missing.  "Enum over 12 directional values: (top, bottom, left, right) x
    (none, start, end)"; each value carries a primary side and a secondary
    alignment. *)
Record PopoverPlacement : Type := { side : Side; alignment : Alignment }.

#[export] Instance PopoverPlacement_eq_dec : EqDecision PopoverPlacement.
Proof. solve_decision. Defined.

(** Modelled from the spec: the optional per-edge pixel adjustments
    "(top, bottom, left, right, start, end)" of [OffsetRect] in
    popover/type.ts, which is missing. *)
Record OffsetRect : Type :=
  { offset_top : option Q;
    offset_bottom : option Q;
    offset_left : option Q;
    offset_right : option Q;
    offset_start : option Q;
    offset_end : option Q }.

Module PopoverPlacements.
Import Geometry.

Definition all_sides : list Side := [Top; Bottom; Left; Right].
Definition all_alignments : list Alignment := [AlignNone; AlignStart; AlignEnd].

(** The 12 values. *)
Definition all : list PopoverPlacement :=
  s ← all_sides; a ← all_alignments; [{| side := s; alignment := a |}].

Definition BOTTOM : PopoverPlacement := {| side := Bottom; alignment := AlignNone |}.

Definition side_name (s : Side) : string :=
  match s with
  | Top => "top"
  | Bottom => "bottom"
  | Left => "left"
  | Right => "right"
  end.

(** Modelled from the spec: [rawValue] of popover/type.ts, which is
    missing.  The spelling is the one the popover's own documentation
    lists: [left], [top], [right], [bottom], [left start], [left end],
    [top start], [top end], [right start], [right end], [bottom start],
    [bottom end]. *)
Definition rawValue (p : PopoverPlacement) : string :=
  match alignment p with
  | AlignNone => side_name (side p)
  | AlignStart => side_name (side p) ++ " start"
  | AlignEnd => side_name (side p) ++ " end"
  end.

(** The popover's [placement] prop: [string | PopoverPlacement]. *)
Inductive Raw : Type :=
| RawString (s : string)
| RawPlacement (p : PopoverPlacement).

(** Modelled from the spec: [PopoverPlacements.parse] of popover/type.ts,
    which is missing.  "Parse the requested placement from its raw string
    form; if unrecognized, fall back to a fixed default placement." *)
Definition parse (raw : Raw) (fallback : PopoverPlacement) : PopoverPlacement :=
  match raw with
  | RawPlacement p => p
  | RawString s =>
      match List.find (fun p => bool_decide (rawValue p = s)) all with
      | Some p => p
      | None => fallback
      end
  end.

Definition opposite (s : Side) : Side :=
  match s with
  | Top => Bottom
  | Bottom => Top
  | Left => Right
  | Right => Left
  end.

(** Modelled from the spec: [PopoverPlacement.reverse] of popover/type.ts,
    which is missing.  "180-degree-rotated primary direction, same
    secondary alignment." *)
Definition reverse (p : PopoverPlacement) : PopoverPlacement :=
  {| side := opposite (side p); alignment := alignment p |}.

Local Open Scope Q_scope.

(** Modelled from the spec: step 4 of the placement algorithm (popover/type.ts
    is missing).  Secondary axis: "none centers the overlay frame on the anchor's
    cross-axis midpoint; start/end align overlay edges to anchor edges on
    that axis". *)
Definition align (a : Alignment) (anchor_start anchor_extent extent : Q) : Q :=
  match a with
  | AlignNone => anchor_start + (anchor_extent - extent) / 2
  | AlignStart => anchor_start
  | AlignEnd => anchor_start + anchor_extent - extent
  end.

(** Modelled from the spec: steps 3 and 4 of the placement algorithm
    ([PopoverPlacement.frame] of popover/type.ts is missing).  Primary
    axis: "position the overlay frame's leading edge flush against the
    anchor's trailing edge on the requested side". *)
Definition adjacent (p : PopoverPlacement) (source other : Frame) : Frame :=
  let a := origin other in
  let sa := size other in
  let sc := size source in
  let o :=
    match side p with
    | Top =>
        {| x := align (alignment p) (x a) (width sa) (width sc);
           y := y a - height sc |}
    | Bottom =>
        {| x := align (alignment p) (x a) (width sa) (width sc);
           y := y a + height sa |}
    | Left =>
        {| x := x a - width sc;
           y := align (alignment p) (y a) (height sa) (height sc) |}
    | Right =>
        {| x := x a + width sa;
           y := align (alignment p) (y a) (height sa) (height sc) |}
    end in
  {| origin := o; size := sc |}.

Section WithOffsets.
(** Step 5, "apply any declared per-edge pixel offsets as a final
    additive adjustment to the computed origin": the spec names the
    edges and leaves the direction of each adjustment open, so the
    adjustment is a parameter of the engine. *)
Variable apply_offsets : OffsetRect -> Frame -> Frame.

(** Modelled from the spec: [PopoverPlacement.frame] of popover/type.ts,
    which is missing: steps 3 to 5 of the placement algorithm. *)
Definition frame (p : PopoverPlacement) (source other : Frame)
    (offsets : OffsetRect) : Frame :=
  apply_offsets offsets (adjacent p source other).
End WithOffsets.
End PopoverPlacements.

(** ** [PopoverComponent] *)
Module Popover.

Definition TAG_CHILD : nat := 0.
Definition TAG_CONTENT : nat := 1.
Definition PLACEMENT_DEFAULT : PopoverPlacement := PopoverPlacements.BOTTOM.

(** [MeasureResult]: measured frames by tag. *)
Abbreviation MeasureResult := (gmap nat Frame).

Record PopoverProps : Type :=
  { content : ReactElement;
    children : ReactElement;
    visible : bool;
    placement : PopoverPlacements.Raw;
    props_allowBackdrop : bool;
    props_onBackdropPress : Callback }.

(** The instance: its props, the [layout] key of its state, and its two
    private fields.  [popoverModalId] is declared a string and holds
    whatever [ModalService] returned, [undefined] included. *)
Record PopoverComponent : Type :=
  { props : PopoverProps;
    layout : option MeasureResult;
    popoverElement : option ReactElement;
    popoverModalId : option string }.

Definition with_layout (l : option MeasureResult) (this : PopoverComponent)
  : PopoverComponent :=
  {| props := props this; layout := l;
     popoverElement := popoverElement this;
     popoverModalId := popoverModalId this |}.

Definition with_popoverModalId (i : option string) (this : PopoverComponent)
  : PopoverComponent :=
  {| props := props this; layout := layout this;
     popoverElement := popoverElement this;
     popoverModalId := i |}.

Definition with_popoverElement (e : ReactElement) (this : PopoverComponent)
  : PopoverComponent :=
  {| props := props this; layout := layout this;
     popoverElement := Some e;
     popoverModalId := popoverModalId this |}.

(** React hands the component its next props, then calls
    [componentDidUpdate] with the previous ones. *)
Definition with_props (p : PopoverProps) (this : PopoverComponent)
  : PopoverComponent :=
  {| props := p; layout := layout this;
     popoverElement := popoverElement this;
     popoverModalId := popoverModalId this |}.

Definition set_visible (v : bool) (p : PopoverProps) : PopoverProps :=
  {| content := content p; children := children p; visible := v;
     placement := placement p;
     props_allowBackdrop := props_allowBackdrop p;
     props_onBackdropPress := props_onBackdropPress p |}.

(** [styles.container]. *)
Definition styles_container : ViewStyle :=
  {| style_position := Some "absolute"; style_left := None;
     style_top := None; style_opacity := Some 0%Q |}.

(** [React.cloneElement(element, { style })]; it throws on [undefined]. *)
Definition cloneElement_of (element : option ReactElement) (s : ViewStyle)
  : JsError + ReactElement :=
  match element with
  | Some e => inr (cloneElement e s)
  | None => inl (TypeError "React.cloneElement: the argument must be a React element")
  end.

Definition lift {P A : Type} (r : JsError + A) : M P A :=
  match r with
  | inl e => throw e
  | inr a => ret a
  end.

(** Lines 227-228: the indicator points back at the anchor. *)
Definition indicatorPlacement (this : PopoverComponent) : PopoverPlacement :=
  PopoverPlacements.reverse
    (PopoverPlacements.parse (placement (props this)) PLACEMENT_DEFAULT).

(** The measured [View] of [renderPopoverElement]. *)
Definition renderPopoverElement (this : PopoverComponent) : ReactElement :=
  {| elementName := "View"; style := Some styles_container |}.

(** [render]: with [visible] it stores the element to be measured. *)
Definition render (this : PopoverComponent) : PopoverComponent :=
  if visible (props this)
  then with_popoverElement (renderPopoverElement this) this
  else this.

Definition componentWillUnmount (this : PopoverComponent) : PopoverComponent :=
  with_popoverModalId (Some "") this.

Section WithEngine.
Variable Offsets_find : option ViewStyle -> OffsetRect.
Variable apply_offsets : OffsetRect -> Frame -> Frame.
Context {P : Type} `{!ModalPresenting P}.

(** Destructuring [layout] yields [undefined] for a tag that was not
    measured, and the frame computation then throws. *)
Definition getPopoverFrame (layout : MeasureResult)
    (rawPlacement : PopoverPlacements.Raw) (this : PopoverComponent)
  : JsError + Frame :=
  match layout !! TAG_CONTENT, layout !! TAG_CHILD with
  | Some popoverFrame, Some childFrame =>
      let offsetRect := Offsets_find (style (children (props this))) in
      let placement := PopoverPlacements.parse rawPlacement PLACEMENT_DEFAULT in
      inr (PopoverPlacements.frame apply_offsets placement
             popoverFrame childFrame offsetRect)
  | _, _ => inl (TypeError "Cannot read property 'origin' of undefined")
  end.

Definition showPopoverModal (element : option ReactElement)
    (layout : MeasureResult) (this : PopoverComponent)
  : M P (option string) :=
  let* popoverFrame := lift (getPopoverFrame layout (placement (props this)) this) in
  let popoverPosition := Geometry.origin popoverFrame in
  let additionalStyle :=
    {| style_position := None;
       style_left := Some (Geometry.x popoverPosition);
       style_top := Some (Geometry.y popoverPosition);
       style_opacity := Some 1%Q |} in
  let* popover := lift (cloneElement_of element additionalStyle) in
  ModalService.show popover
    {| allowBackdrop := props_allowBackdrop (props this);
       onBackdropPress := props_onBackdropPress (props this) |}.

Definition onMeasure (layout : MeasureResult) (this : PopoverComponent)
  : M P PopoverComponent :=
  if visible (props this) then
    let* identifier := showPopoverModal (popoverElement this) layout this in
    ret (with_popoverModalId identifier this)
  else ret this.

Definition componentDidUpdate (prevProps : PopoverProps)
    (this : PopoverComponent) : M P PopoverComponent :=
  if negb (Bool.eqb (visible prevProps) (visible (props this))) then
    if visible (props this) then
      ret (with_layout None this)
    else
      let* identifier := ModalService.hide (popoverModalId this) in
      ret (with_popoverModalId identifier this)
  else ret this.
End WithEngine.
End Popover.

(** ** [ViewPager]: the release of a pan gesture

    Numbers are JavaScript doubles in the code; velocities, distances and
    widths are rationals here and page indices are integers. *)
Module ViewPager.
Local Open Scope Q_scope.

Record PanResponderGestureState : Type := { dx : Q; dy : Q; vx : Q }.

Record ViewPager : Type :=
  { selectedIndex : Z;
    contentWidth : Q }.

(** [Animated.timing(this.contentOffset, { toValue, duration })]. *)
Record CompositeAnimation : Type := { toValue : Q; duration : Z }.

Record ScrollToIndexParams : Type := { index : Z; animated : option bool }.
Record ScrollToOffsetParams : Type :=
  { offset : Q; offset_animated : option bool }.

Definition createOffsetAnimation (params : ScrollToOffsetParams)
  : CompositeAnimation :=
  let animationDuration :=
    match offset_animated params with
    | Some true => 300%Z
    | _ => 0%Z
    end in
  {| toValue := - offset params; duration := animationDuration |}.

(** The animation that [scrollToOffset] starts. *)
Definition scrollToOffset (params : ScrollToOffsetParams) : CompositeAnimation :=
  createOffsetAnimation params.

(** The product is exact here; the code's is a product of doubles and may
    round.  The statements below are about the index handed over, not
    about the offset. *)
Definition scrollToIndex (params : ScrollToIndexParams) (this : ViewPager)
  : CompositeAnimation :=
  let offset := contentWidth this * inject_Z (index params) in
  scrollToOffset {| offset := offset; offset_animated := animated params |}.

Definition Qlt_bool (a b : Q) : bool := negb (Qle_bool b a).

(** The test of line 170. *)
Definition release_flips (state : PanResponderGestureState) (this : ViewPager)
  : bool :=
  Qle_bool (1 # 2) (Qabs (vx state))
  || Qle_bool ((1 # 2) * contentWidth this) (Qabs (dx state)).

(** The argument with which the handler calls [this.scrollToIndex]. *)
Definition release_params (state : PanResponderGestureState) (this : ViewPager)
  : ScrollToIndexParams :=
  if release_flips state this then
    let index :=
      if Qlt_bool 0 (dx state)
      then (selectedIndex this - 1)%Z
      else (selectedIndex this + 1)%Z in
    {| index := index; animated := Some true |}
  else
    let index := selectedIndex this in
    {| index := index; animated := Some true |}.

Definition onPanResponderRelease (state : PanResponderGestureState)
    (this : ViewPager) : CompositeAnimation :=
  scrollToIndex (release_params state this) this.
End ViewPager.

(** ** Runs of calls, and the concrete inputs used below *)

(** Consecutive [show] calls on one panel, with no [hide] in between: the
    identifiers returned, in call order, and the panel left behind. *)
Fixpoint show_all (requests : list (ReactElement * ModalPresentingConfig))
    (this : ModalPanel.ModalPanelState) (g : Prng)
  : list string * ModalPanel.ModalPanelState * Prng :=
  match requests with
  | [] => ([], this, g)
  | (e, config) :: requests' =>
      let '(identifier, this', g') := ModalPanel.show e config this g in
      let '(identifiers, this'', g'') := show_all requests' this' g' in
      (identifier :: identifiers, this'', g'')
  end.

(** A call a client makes on [ModalService]. *)
Inductive ServiceCall : Type :=
| CallShow (e : ReactElement) (config : ModalPresentingConfig)
| CallHide (identifier : option string).

Section Calls.
Context {P : Type} `{!ModalPresenting P}.

Definition run_call (c : ServiceCall) : M P (option string) :=
  match c with
  | CallShow e config => ModalService.show e config
  | CallHide identifier => ModalService.hide identifier
  end.

Fixpoint run_calls (cs : list ServiceCall) : M P (list (option string)) :=
  match cs with
  | [] => ret []
  | c :: cs' =>
      let* r := run_call c in
      let* rs := run_calls cs' in
      ret (r :: rs)
  end.
End Calls.

(** A generator whose first draws are the listed numerators. *)
Definition tape (draws : list N) : Prng :=
  {| outputs := fun i => nth i draws 0%N; cursor := 0 |}.

Definition ONE_HALF : N := 2 ^ 52.
Definition ONE_QUARTER : N := 2 ^ 51.

Definition element_named (name : string) : ReactElement :=
  {| elementName := name; style := None |}.

Definition sample_config : ModalPresentingConfig :=
  {| allowBackdrop := true; onBackdropPress := 0 |}.

(** Three requests, as a client would make them in a row. *)
Definition show_A_B : list (ReactElement * ModalPresentingConfig) :=
  [(element_named "A", sample_config); (element_named "B", sample_config)].

Definition show_A_B_C : list (ReactElement * ModalPresentingConfig) :=
  show_A_B ++ [(element_named "C", sample_config)].

(** No presenter mounted, every reference naming a fresh panel. *)
Definition unmounted_world : World ModalPanel.ModalPanelState :=
  {| service := {| panel := None |};
     objects := fun _ => ModalPanel.initial;
     random := tape [ONE_HALF; ONE_QUARTER];
     invocations := [] |}.

(** The world after [this.panel = p]. *)
Definition bound_to {P : Type} (p : option ref) (w : World P) : World P :=
  {| service := {| panel := p |};
     objects := objects w;
     random := random w;
     invocations := invocations w |}.

(** A pager on its third page of width 100, and three gestures. *)
Definition sample_pager : ViewPager.ViewPager :=
  {| ViewPager.selectedIndex := 2; ViewPager.contentWidth := 100 |}.

Definition fast_swipe_right : ViewPager.PanResponderGestureState :=
  {| ViewPager.dx := 10; ViewPager.dy := 0; ViewPager.vx := 1 |}.

Definition long_drag_left : ViewPager.PanResponderGestureState :=
  {| ViewPager.dx := -60; ViewPager.dy := 0; ViewPager.vx := 0 |}.

Definition short_drag : ViewPager.PanResponderGestureState :=
  {| ViewPager.dx := 20; ViewPager.dy := 0; ViewPager.vx := 1 # 10 |}.

Definition with_random {P : Type} (g : Prng) (w : World P) : World P :=
  {| service := service w;
     objects := objects w;
     random := g;
     invocations := invocations w |}.

(** ** Further parts of the components *)

(** [Map.prototype.get], to observe a map; the components never call it. *)
Fixpoint map_get {V : Type} (k : string) (m : JsMap.t V) : option V :=
  match m with
  | [] => None
  | (k', v') :: m' => if decide (k' = k) then Some v' else map_get k m'
  end.

(** [ModalPanel.render]: the children, then
    [this.areThereAnyComponents() && this.renderModals()]; a [false] in
    that place renders nothing. *)
Definition ModalPanel_render (children : list ReactElement)
    (this : ModalPanel.ModalPanelState)
  : list ReactElement * list ModalPanel.ModalResolver :=
  (children,
   if ModalPanel.areThereAnyComponents this
   then ModalPanel.renderModals this
   else []).

(** [PopoverComponent.getComponentStyle]: a style object is a finite map
    from keys to values; [{ a, b, c, ...rest } = source] reads three keys
    (each possibly [undefined]) and collects the others. *)
Module PopoverStyle.
Section WithValues.
Context {V : Type}.

Record IndicatorStyle : Type :=
  { width : option V; height : option V; backgroundColor : option V }.

Record ComponentStyle : Type :=
  { container : gmap string V;
    indicator : IndicatorStyle;
    child : gmap string V }.

Definition getComponentStyle (source : gmap string V) : ComponentStyle :=
  let indicatorWidth := source !! "indicatorWidth" in
  let indicatorHeight := source !! "indicatorHeight" in
  let indicatorBackgroundColor := source !! "indicatorBackgroundColor" in
  let containerParameters :=
    delete "indicatorBackgroundColor"
      (delete "indicatorHeight" (delete "indicatorWidth" source)) in
  {| container := containerParameters;
     indicator :=
       {| width := indicatorWidth;
          height := indicatorHeight;
          backgroundColor := indicatorBackgroundColor |};
     child := ∅ |}.

(** The keys the indicator takes out of the source. *)
Definition indicator_keys : list string :=
  ["indicatorWidth"; "indicatorHeight"; "indicatorBackgroundColor"].
End WithValues.
Arguments IndicatorStyle : clear implicits.
Arguments ComponentStyle : clear implicits.
End PopoverStyle.

(** ** [ViewPager]: children, gesture capture and lazy pages *)
Module ViewPagerChildren.

(** The pager of [ViewPager] with the props that module leaves out. *)
Record Instance : Type :=
  { pager : ViewPager.ViewPager;
    children : list ReactElement;
    shouldLoadComponent : nat -> bool }.

(** [React.Children.count(this.props.children)]. *)
Definition getChildCount (this : Instance) : Z :=
  Z.of_nat (length (children this)).

(** [Math.sign] on a finite number. *)
Definition Math_sign (q : Q) : Z := Z.sgn (Qnum q).

Definition onMoveShouldSetPanResponder
    (state : ViewPager.PanResponderGestureState) (this : Instance) : bool :=
  let isHorizontalMove :=
    ViewPager.Qlt_bool 0 (Qabs (ViewPager.dx state))
    && ViewPager.Qlt_bool (Qabs (ViewPager.dy state)) (Qabs (ViewPager.dx state)) in
  if isHorizontalMove then
    let nextSelectedIndex :=
      (ViewPager.selectedIndex (pager this) - Math_sign (ViewPager.dx state))%Z in
    (0 <=? nextSelectedIndex)%Z && (nextSelectedIndex <? getChildCount this)%Z
  else false.

(** The content of the page container that [renderComponentChild] builds:
    the child, or [null]. *)
Definition renderComponentChild (this : Instance) (source : ReactElement)
    (index : nat) : option ReactElement :=
  if shouldLoadComponent this index then Some source else None.

(** [React.Children.map(source, this.renderComponentChild)]. *)
Definition renderComponentChildren (this : Instance)
  : list (option ReactElement) :=
  ModalPanel.map_indexed (renderComponentChild this) 0 (children this).
End ViewPagerChildren.

(** ** [ToggleComponent]

    The animated values belong to the animation library; the component
    only issues commands on them, and those are what is recorded.  A
    callback handed to [start] is kept as data and run when the library
    reports the end of the animation. *)
Module Toggle.

(** [enum Interaction] of theme/style/type.ts. *)
Inductive Interaction : Type := ACTIVE | FOCUSED | INDETERMINATE.

Record ThemedStyle : Type := { thumbWidth : Q; offsetValue : Q }.

Record ToggleProps : Type :=
  { checked : bool;
    disabled : bool;
    themedStyle : ThemedStyle;
    onChange : option Callback }.

Record ToggleComponent : Type :=
  { props : ToggleProps;
    thumbTranslateAnimationActive : bool }.

Inductive AnimatedValue : Type :=
| thumbWidthAnimation
| thumbTranslateAnimation
| ellipseScaleAnimation.

(** [(nextValue: boolean) => ...]: the default [() => null] of [toggle],
    or [this.onPress]. *)
Inductive NextValueCallback : Type := nextValue_null | this_onPress.

(** [() => ...]: the default [() => null] of the [animate...] methods, or
    the closure [toggle] builds around its callback and the [checked] it
    read. *)
Inductive VoidCallback : Type :=
| void_null
| toggle_finish (callback : NextValueCallback) (checked : bool).

(** What [start] receives: the callback itself, or the wrapper of
    [animateThumbTranslate] that first clears the active flag. *)
Inductive EndCallback : Type :=
| end_plain (callback : VoidCallback)
| end_thumbTranslate (callback : VoidCallback).

Inductive Command : Type :=
| timing_start (value : AnimatedValue) (toValue : Q) (duration : Z)
    (callback : EndCallback)
| stopAnimation (value : AnimatedValue)
| setValue (value : AnimatedValue) (to : Q)
| dispatch (interactions : list Interaction)
| call_onChange (f : Callback) (checked : bool).

Definition with_active (b : bool) (this : ToggleComponent) : ToggleComponent :=
  {| props := props this; thumbTranslateAnimationActive := b |}.

(** React replacing the props of a mounted component. *)
Definition with_props (p : ToggleProps) (this : ToggleComponent)
  : ToggleComponent :=
  {| props := p;
     thumbTranslateAnimationActive := thumbTranslateAnimationActive this |}.

Definition onPressIn (this : ToggleComponent) : list Command :=
  [dispatch [ACTIVE]].

Definition onPressOut (this : ToggleComponent) : list Command :=
  [dispatch []].

Definition onPress (this : ToggleComponent) : list Command :=
  match onChange (props this) with
  | Some f => [call_onChange f (negb (checked (props this)))]
  | None => []
  end.

Definition animateThumbTranslate (value : Q) (callback : VoidCallback)
    (this : ToggleComponent) : ToggleComponent * list Command :=
  (with_active true this,
   [timing_start thumbTranslateAnimation value 150 (end_thumbTranslate callback)]).

Definition animateThumbWidth (value : Q) (callback : VoidCallback)
  : list Command :=
  [timing_start thumbWidthAnimation value 150 (end_plain callback)].

Definition animateEllipseScale (value : Q) (callback : VoidCallback)
  : list Command :=
  [timing_start ellipseScaleAnimation value 200 (end_plain callback)].

Definition stopAnimations (this : ToggleComponent) : list Command :=
  let value := if checked (props this) then (1 # 100)%Q else 1%Q in
  [stopAnimation thumbTranslateAnimation;
   stopAnimation ellipseScaleAnimation;
   stopAnimation thumbWidthAnimation;
   setValue ellipseScaleAnimation value].

Definition toggle (callback : NextValueCallback) (this : ToggleComponent)
  : ToggleComponent * list Command :=
  let checked := checked (props this) in
  let offset := offsetValue (themedStyle (props this)) in
  let value := if checked then (- offset)%Q else offset in
  let (this', started) :=
    animateThumbTranslate value (toggle_finish callback checked) this in
  (this',
   started ++ animateThumbWidth (thumbWidth (themedStyle (props this'))) void_null).

Definition onPanResponderGrant (this : ToggleComponent)
  : ToggleComponent * list Command :=
  if disabled (props this) then (this, [])
  else
    let pressed := onPressIn this in
    if thumbTranslateAnimationActive this then
      let this' := with_active false this in
      (this', pressed ++ stopAnimations this')
    else
      (this,
       pressed
       ++ animateThumbWidth (thumbWidth (themedStyle (props this)) * (12 # 10))%Q void_null
       ++ animateEllipseScale
            (if checked (props this) then 1%Q else (1 # 100)%Q) void_null).

(** The test of line 160. *)
Definition release_toggles (gestureState : ViewPager.PanResponderGestureState)
    (this : ToggleComponent) : bool :=
  (negb (checked (props this)) && ViewPager.Qlt_bool (-5) (ViewPager.dx gestureState))
  || (checked (props this) && ViewPager.Qlt_bool (ViewPager.dx gestureState) 5).

Definition onPanResponderRelease
    (gestureState : ViewPager.PanResponderGestureState) (this : ToggleComponent)
  : ToggleComponent * list Command :=
  let (this', first) :=
    if negb (disabled (props this)) then
      if release_toggles gestureState this then toggle this_onPress this
      else
        (this,
         animateEllipseScale
           (if checked (props this) then (1 # 100)%Q else 1%Q) void_null)
    else (this, []) in
  (this',
   first
   ++ animateThumbWidth (thumbWidth (themedStyle (props this'))) void_null
   ++ onPressOut this').

(** Running the callbacks when the library calls them back. *)
Definition run_NextValueCallback (callback : NextValueCallback)
    (nextValue : bool) (this : ToggleComponent) : list Command :=
  match callback with
  | nextValue_null => []
  | this_onPress => onPress this
  end.

Definition run_VoidCallback (callback : VoidCallback) (this : ToggleComponent)
  : list Command :=
  match callback with
  | void_null => []
  | toggle_finish callback' checked =>
      setValue thumbTranslateAnimation 0
      :: run_NextValueCallback callback' (negb checked) this
  end.

Definition run_EndCallback (callback : EndCallback) (this : ToggleComponent)
  : ToggleComponent * list Command :=
  match callback with
  | end_plain callback' => (this, run_VoidCallback callback' this)
  | end_thumbTranslate callback' =>
      let this' := with_active false this in
      (this', run_VoidCallback callback' this')
  end.

(** The two gestures of a touch, and a run of touches. *)
Inductive Gesture : Type :=
| Grant
| Release (gestureState : ViewPager.PanResponderGestureState).

Definition run_gesture (g : Gesture) (this : ToggleComponent)
  : ToggleComponent * list Command :=
  match g with
  | Grant => onPanResponderGrant this
  | Release gestureState => onPanResponderRelease gestureState this
  end.

Fixpoint run_gestures (gs : list Gesture) (this : ToggleComponent)
  : ToggleComponent * list Command :=
  match gs with
  | [] => (this, [])
  | g :: gs' =>
      let (this', commands) := run_gesture g this in
      let (this'', commands') := run_gestures gs' this' in
      (this'', commands ++ commands')
  end.

Definition starts_thumb_translation (c : Command) : bool :=
  match c with
  | timing_start thumbTranslateAnimation _ _ _ => true
  | _ => false
  end.

Definition calls_onChange (c : Command) : bool :=
  match c with
  | call_onChange _ _ => true
  | _ => false
  end.
End Toggle.

(** What [showPopoverModal] hands to [ModalService.show] for a measured
    element and a computed frame: the style override, and the record the
    panel makes of the element and the configuration. *)
Definition overlay_style (frame : Frame) : ViewStyle :=
  {| style_position := None;
     style_left := Some (Geometry.x (Geometry.origin frame));
     style_top := Some (Geometry.y (Geometry.origin frame));
     style_opacity := Some 1%Q |}.

Definition overlay_config (this : Popover.PopoverComponent)
  : ModalPresentingConfig :=
  {| allowBackdrop := Popover.props_allowBackdrop (Popover.props this);
     onBackdropPress := Popover.props_onBackdropPress (Popover.props this) |}.

Definition ONE_EIGHTH : N := 2 ^ 50.

(** A panel holding A, B and C under three distinct keys. *)
Definition stacked_panel : ModalPanel.ModalPanelState :=
  snd (fst (show_all show_A_B_C ModalPanel.initial
              (tape [ONE_HALF; ONE_QUARTER; ONE_EIGHTH]))).

(** The world after the panel at [r] has shown [popover]. *)
Definition after_show (r : ref) (popover : ReactElement)
    (config : ModalPresentingConfig) (w : World ModalPanel.ModalPanelState)
  : World ModalPanel.ModalPanelState :=
  {| service := service w;
     objects :=
       <[r := snd (fst (ModalPanel.show popover config (objects w r) (random w)))]>
         (objects w);
     random := snd (ModalPanel.show popover config (objects w r) (random w));
     invocations := invocations w ++ [InvokeShow r popover config] |}.

(** A popover on a button, asked to be visible and rendered once; the two
    measured frames; a world whose panel 0 has mounted; an engine without
    offsets. *)
Definition sample_popover : Popover.PopoverComponent :=
  Popover.render
    {| Popover.props :=
         {| Popover.content := element_named "Content";
            Popover.children := element_named "Button";
            Popover.visible := true;
            Popover.placement := PopoverPlacements.RawString "bottom";
            Popover.props_allowBackdrop := true;
            Popover.props_onBackdropPress := 7 |};
       Popover.layout := None;
       Popover.popoverElement := None;
       Popover.popoverModalId := Some "" |}.

Definition sample_child_frame : Frame :=
  {| Geometry.origin := {| Geometry.x := 10; Geometry.y := 20 |};
     Geometry.size := {| Geometry.width := 100; Geometry.height := 40 |} |}.

Definition sample_content_frame : Frame :=
  {| Geometry.origin := {| Geometry.x := 0; Geometry.y := 0 |};
     Geometry.size := {| Geometry.width := 60; Geometry.height := 30 |} |}.

Definition sample_layout : Popover.MeasureResult :=
  <[Popover.TAG_CONTENT := sample_content_frame]>
    (<[Popover.TAG_CHILD := sample_child_frame]> ∅).

Definition no_offsets : OffsetRect :=
  {| offset_top := None; offset_bottom := None; offset_left := None;
     offset_right := None; offset_start := None; offset_end := None |}.

Definition find_no_offsets (s : option ViewStyle) : OffsetRect := no_offsets.
Definition leave_frame (o : OffsetRect) (f : Frame) : Frame := f.

Definition sample_frame : Frame :=
  PopoverPlacements.frame leave_frame PopoverPlacements.BOTTOM
    sample_content_frame sample_child_frame no_offsets.

Definition mounted_world : World ModalPanel.ModalPanelState :=
  bound_to (Some 0) unmounted_world.

(** The sample pager with its three pages, all loaded. *)
Definition sample_pages : ViewPagerChildren.Instance :=
  {| ViewPagerChildren.pager := sample_pager;
     ViewPagerChildren.children :=
       [element_named "A"; element_named "B"; element_named "C"];
     ViewPagerChildren.shouldLoadComponent := fun _ => true |}.

(** What a release issues after its first step, whatever that step was. *)
Definition release_tail (this : Toggle.ToggleComponent) : list Toggle.Command :=
  [Toggle.timing_start Toggle.thumbWidthAnimation
     (Toggle.thumbWidth (Toggle.themedStyle (Toggle.props this))) 150
     (Toggle.end_plain Toggle.void_null);
   Toggle.dispatch []].

(** An unchecked toggle, enabled and disabled, and a tap. *)
Definition sample_toggle_props (is_disabled : bool) : Toggle.ToggleProps :=
  {| Toggle.checked := false;
     Toggle.disabled := is_disabled;
     Toggle.themedStyle := {| Toggle.thumbWidth := 28; Toggle.offsetValue := 20 |};
     Toggle.onChange := Some 3 |}.

Definition sample_toggle (is_disabled : bool) : Toggle.ToggleComponent :=
  {| Toggle.props := sample_toggle_props is_disabled;
     Toggle.thumbTranslateAnimationActive := false |}.

Definition tap : ViewPager.PanResponderGestureState :=
  {| ViewPager.dx := 0; ViewPager.dy := 0; ViewPager.vx := 0 |}.

(** The calls of a run made on one presenter directly, without the
    service in between: the invocation each call is, what the presenter
    returns for it, and what the presenter and the generator become. *)
Definition invocation_of (r : ref) (c : ServiceCall) : Invocation :=
  match c with
  | CallShow e config => InvokeShow r e config
  | CallHide identifier => InvokeHide r identifier
  end.

Section DirectCalls.
Context {P : Type} `{!ModalPresenting P}.

Definition presenter_call (c : ServiceCall) (obj : P) (g : Prng)
  : string * P * Prng :=
  match c with
  | CallShow e config => presenting_show e config obj g
  | CallHide identifier =>
      (fst (presenting_hide identifier obj),
       snd (presenting_hide identifier obj), g)
  end.

Fixpoint presenter_calls (cs : list ServiceCall) (obj : P) (g : Prng)
  : list string * P * Prng :=
  match cs with
  | [] => ([], obj, g)
  | c :: cs' =>
      let '(result, obj', g') := presenter_call c obj g in
      let '(results, obj'', g'') := presenter_calls cs' obj' g' in
      (result :: results, obj'', g'')
  end.
End DirectCalls.

(** * Properties *)

(** ** The ordered map *)
Section JsMapFacts.
Context {V : Type}.
Implicit Types (m : JsMap.t V) (k : string) (v : V).

Lemma keys_set_present k v m :
  k ∈ JsMap.keys m -> JsMap.keys (JsMap.set k v m) = JsMap.keys m.
Proof.
  induction m as [|[k' v'] m IH]; intros Hin; simpl in *.
  - by apply elem_of_nil in Hin.
  - destruct (decide (k' = k)) as [->|Hne]; simpl; [done|].
    f_equal. apply IH. apply elem_of_cons in Hin as [?|?]; congruence.
Qed.

Lemma set_fresh k v m :
  k ∉ JsMap.keys m -> JsMap.set k v m = m ++ [(k, v)].
Proof.
  induction m as [|[k' v'] m IH]; intros Hnin; simpl in *; [done|].
  apply not_elem_of_cons in Hnin as [Hne Hnin].
  destruct (decide (k' = k)) as [->|_]; [done|].
  by rewrite IH.
Qed.

Lemma elem_of_keys_set k k0 v m :
  k0 ∈ JsMap.keys (JsMap.set k v m) <-> k0 = k \/ k0 ∈ JsMap.keys m.
Proof.
  induction m as [|[k' v'] m IH]; simpl.
  - rewrite list_elem_of_singleton. split; [auto|].
    intros [?|H]; [done|]. by apply elem_of_nil in H.
  - destruct (decide (k' = k)) as [->|Hne]; simpl;
      rewrite !elem_of_cons; [tauto|]. rewrite IH. tauto.
Qed.

Lemma keys_set_NoDup k v m :
  NoDup (JsMap.keys m) -> NoDup (JsMap.keys (JsMap.set k v m)).
Proof.
  induction m as [|[k' v'] m IH]; simpl; intros Hnd.
  - apply NoDup_singleton.
  - apply NoDup_cons in Hnd as [Hnin Hnd].
    destruct (decide (k' = k)) as [->|Hne]; simpl.
    + by apply NoDup_cons.
    + apply NoDup_cons. split; [|by apply IH].
      rewrite elem_of_keys_set. intros [?|?]; congruence.
Qed.

Lemma elem_of_keys_delete (key : option string) k0 m :
  k0 ∈ JsMap.keys (JsMap.delete key m) <->
  Some k0 <> key /\ k0 ∈ JsMap.keys m.
Proof.
  unfold JsMap.delete, JsMap.keys.
  induction m as [|[k' v'] m IH].
  - simpl. split; [|tauto]. intros H. by apply elem_of_nil in H.
  - rewrite filter_cons. cbn [fst map].
    destruct (decide (Some k' <> key)) as [Hk|Hk]; cbn [fst map];
      rewrite ?elem_of_cons, IH.
    + split; [intros [->|[? ?]]; auto|tauto].
    + split; [tauto|]. intros [Hne [->|?]]; [done|tauto].
Qed.

Lemma keys_delete_NoDup (key : option string) m :
  NoDup (JsMap.keys m) -> NoDup (JsMap.keys (JsMap.delete key m)).
Proof.
  induction m as [|[k' v'] m IH]; intros Hnd; [done|].
  cbn [JsMap.keys map fst] in Hnd.
  apply NoDup_cons in Hnd as [Hnin Hnd].
  unfold JsMap.delete. rewrite filter_cons. cbn [fst].
  destruct (decide (Some k' <> key)); cbn [JsMap.keys map fst];
    [|by apply IH].
  apply NoDup_cons. split; [|by apply IH].
  intros Hin. apply elem_of_keys_delete in Hin. tauto.
Qed.

Lemma delete_absent (key : option string) m :
  (forall k, key = Some k -> k ∉ JsMap.keys m) -> JsMap.delete key m = m.
Proof.
  unfold JsMap.delete.
  induction m as [|[k' v'] m IH]; intros Habs; [done|].
  cbn [JsMap.keys map fst] in Habs.
  rewrite filter_cons_True.
  - f_equal. apply IH. intros k Hk Hin.
    apply (Habs k Hk). apply elem_of_cons. by right.
  - simpl. intros <-. apply (Habs k' eq_refl). apply elem_of_cons. by left.
Qed.

Lemma delete_delete (key : option string) m :
  JsMap.delete key (JsMap.delete key m) = JsMap.delete key m.
Proof.
  apply delete_absent. intros k -> Hin.
  apply elem_of_keys_delete in Hin. tauto.
Qed.

Lemma delete_sublist (key : option string) m :
  sublist (JsMap.delete key m) m.
Proof. apply sublist_filter. Qed.
End JsMapFacts.

(** ** [ModalPanel] *)
Section PanelFacts.
Import ModalPanel.
Implicit Types (this : ModalPanelState) (g : Prng).

(** The identifier is a function of the draw alone: neither the map nor
    anything else is consulted. *)
Lemma show_identifier e config this g :
  fst (fst (show e config this g)) =
  substring_from 2 (toString36 (outputs g (cursor g) mod RANDOM_DENOMINATOR)%N).
Proof. reflexivity. Qed.

(** Two calls that meet the same draw return the same identifier,
    whatever is shown and whatever the panels hold. *)
Lemma show_same_draw e1 config1 this1 g1 e2 config2 this2 g2 :
  outputs g1 (cursor g1) = outputs g2 (cursor g2) ->
  fst (fst (show e1 config1 this1 g1)) = fst (fst (show e2 config2 this2 g2)).
Proof. intros Hdraw. rewrite !show_identifier. by rewrite Hdraw. Qed.

Lemma show_components e config this g :
  components (snd (fst (show e config this g))) =
  JsMap.set (fst (fst (show e config this g))) (spread config e)
    (components this).
Proof. reflexivity. Qed.

(** The part of the registry invariant that no draw can break: keys stay
    pairwise distinct under [show] and under [hide]. *)
Lemma show_keys_NoDup e config this g :
  NoDup (JsMap.keys (components this)) ->
  NoDup (JsMap.keys (components (snd (fst (show e config this g))))).
Proof. intros Hnd. rewrite show_components. by apply keys_set_NoDup. Qed.

Lemma hide_keys_NoDup identifier this :
  NoDup (JsMap.keys (components this)) ->
  NoDup (JsMap.keys (components (snd (hide identifier this)))).
Proof. intros Hnd. simpl. by apply keys_delete_NoDup. Qed.

Lemma show_all_keys_NoDup requests : forall this g,
  NoDup (JsMap.keys (components this)) ->
  NoDup (JsMap.keys (components (snd (fst (show_all requests this g))))).
Proof.
  induction requests as [|[e config] requests IH]; intros this g Hnd; [done|].
  cbn [show_all].
  pose proof (show_keys_NoDup e config this g Hnd) as Hstep.
  destruct (show e config this g) as [[identifier this1] g1].
  specialize (IH this1 g1 Hstep).
  by destruct (show_all requests this1 g1) as [[identifiers this2] g2].
Qed.

(** When the drawn key is not in use, the new record goes last. *)
Lemma show_fresh_appends e config this g :
  fst (fst (show e config this g)) ∉ JsMap.keys (components this) ->
  components (snd (fst (show e config this g))) =
  components this ++ [(fst (fst (show e config this g)), spread config e)].
Proof. intros Hfresh. rewrite show_components. by apply set_fresh. Qed.

Lemma map_indexed_child (l : list ModalPanelChild) (from : nat) :
  map resolver_child (map_indexed renderModal from l) = map element l.
Proof.
  revert from. induction l as [|c l IH]; intros from; simpl; [done|].
  by rewrite IH.
Qed.

(** Rendering follows the order of the map. *)
Lemma renderModals_children this :
  map resolver_child (renderModals this) =
  map element (JsMap.values (components this)).
Proof. apply map_indexed_child. Qed.
End PanelFacts.

(** C1.  Claim: consecutive [show] calls with no [hide] in between return
    pairwise distinct identifiers, each one fresh for the map.  The code
    derives the key from [Math.random()] alone and never looks at the map.
    With the draw 1/2 coming up twice, both calls return "i": the list of
    returned identifiers has a repetition, the second key was already in
    the map when it was generated, and the second record has replaced the
    first.  The same two calls made through [ModalService] on the mounted
    panel return "i" twice as well. *)
Theorem show_repeated_draw_collides :
  let first :=
    ModalPanel.show (element_named "A") sample_config ModalPanel.initial
      (tape [ONE_HALF; ONE_HALF]) in
  let run := show_all show_A_B ModalPanel.initial (tape [ONE_HALF; ONE_HALF]) in
  fst (fst run) = ["i"; "i"] /\
  ~ NoDup (fst (fst run)) /\
  "i" ∈ JsMap.keys (ModalPanel.components (snd (fst first))) /\
  ModalPanel.components (snd (fst run)) =
    [("i", ModalPanel.spread sample_config (element_named "B"))] /\
  returned
    ((let* _ := componentDidMount 0 in
      run_calls [CallShow (element_named "A") sample_config;
                 CallShow (element_named "B") sample_config])
       (with_random (tape [ONE_HALF; ONE_HALF]) unmounted_world))
  = Some [Some "i"; Some "i"].
Proof.
  cbv zeta. split; [reflexivity|].
  split; [|split; [|split; reflexivity]].
  - change (~ NoDup ["i"; "i"]). rewrite NoDup_cons.
    intros [Hnin _]. apply Hnin. apply list_elem_of_singleton. reflexivity.
  - change ("i" ∈ ["i"]). apply list_elem_of_singleton. reflexivity.
Qed.

(** C3.  [hide] returns the empty string for every identifier and every
    state; hiding an identifier that is not a key leaves the state as it
    was; hiding twice is the same as hiding once. *)
Theorem hide_returns_empty_and_is_idempotent
    (X : option string) (this : ModalPanel.ModalPanelState) :
  let this' := snd (ModalPanel.hide X this) in
  fst (ModalPanel.hide X this) = "" /\
  ((forall k, X = Some k -> k ∉ JsMap.keys (ModalPanel.components this)) ->
   this' = this) /\
  ModalPanel.hide X this' = ModalPanel.hide X this.
Proof.
  cbv zeta. split; [reflexivity|]. split.
  - intros Habsent. destruct this as [m]. simpl. f_equal.
    by apply delete_absent.
  - unfold ModalPanel.hide. simpl. by rewrite delete_delete.
Qed.

(** C3 at a concrete panel: "zz" is not a key of a panel holding "i". *)
Lemma hide_returns_empty_and_is_idempotent_witness :
  let this :=
    snd (fst (ModalPanel.show (element_named "A") sample_config
                ModalPanel.initial (tape [ONE_HALF]))) in
  snd (ModalPanel.hide (Some "zz") this) = this.
Proof.
  cbv zeta.
  apply (proj1 (proj2 (hide_returns_empty_and_is_idempotent (Some "zz") _))).
  intros k Hk. injection Hk as <-.
  change ("zz" ∉ ["i"]). rewrite list_elem_of_singleton. discriminate.
Defined.

(** C8.  Claim: the map keeps the records in insertion order and renders
    them in that order, later insertions on top, with keys unique at all
    times.  Keys do stay unique ([show_keys_NoDup], [hide_keys_NoDup]) and
    rendering does follow the map ([renderModals_children]), but a key that
    is drawn again overwrites the older record where it stands: after
    showing A, B, C with the draws 1/2, 1/4, 1/2 the map holds C before B,
    so C, inserted last, is rendered under B. *)
Theorem show_colliding_key_breaks_stacking_order :
  let run :=
    show_all show_A_B_C ModalPanel.initial
      (tape [ONE_HALF; ONE_QUARTER; ONE_HALF]) in
  fst (fst run) = ["i"; "9"; "i"] /\
  JsMap.keys (ModalPanel.components (snd (fst run))) = ["i"; "9"] /\
  map ModalPanel.resolver_child (ModalPanel.renderModals (snd (fst run))) =
    [element_named "C"; element_named "B"].
Proof. cbv zeta. repeat split; reflexivity. Qed.

(** ** [ModalService] *)

Section ServiceFacts.
Context {P : Type} `{!ModalPresenting P}.
Implicit Types (w : World P) (r : ref) (cs : list ServiceCall).

Lemma show_unmounted e config w :
  panel (service w) = None -> ModalService.show e config w = Returned None w.
Proof.
  intros Hnone. unfold ModalService.show, bind, read_panel.
  by rewrite Hnone.
Qed.

Lemma hide_unmounted identifier w :
  panel (service w) = None -> ModalService.hide identifier w = Returned None w.
Proof.
  intros Hnone. unfold ModalService.hide, bind, read_panel.
  by rewrite Hnone.
Qed.

(** With a presenter bound, [show] is that presenter's [show], run on
    that presenter's fields, and nothing else. *)
Lemma show_delegates e config w r :
  panel (service w) = Some r ->
  ModalService.show e config w =
  Returned
    (Some (fst (fst (presenting_show e config (objects w r) (random w)))))
    {| service := service w;
       objects :=
         <[r := snd (fst (presenting_show e config (objects w r) (random w)))]>
           (objects w);
       random := snd (presenting_show e config (objects w r) (random w));
       invocations := invocations w ++ [InvokeShow r e config] |}.
Proof.
  intros Hsome. unfold ModalService.show, bind, read_panel.
  rewrite Hsome. simpl.
  by destruct (presenting_show e config (objects w r) (random w)) as [[i o] g].
Qed.

Lemma hide_delegates identifier w r :
  panel (service w) = Some r ->
  ModalService.hide identifier w =
  Returned
    (Some (fst (presenting_hide identifier (objects w r))))
    {| service := service w;
       objects := <[r := snd (presenting_hide identifier (objects w r))]> (objects w);
       random := random w;
       invocations := invocations w ++ [InvokeHide r identifier] |}.
Proof.
  intros Hsome. unfold ModalService.hide, bind, read_panel.
  rewrite Hsome. simpl.
  by destruct (presenting_hide identifier (objects w r)) as [i o].
Qed.

(** One call on a bound service: it returns, it reaches the bound
    presenter once and no other object. *)
Lemma run_call_mounted c w r :
  panel (service w) = Some r ->
  exists result w' i,
    run_call c w = Returned (Some result) w' /\
    panel (service w') = Some r /\
    invocations w' = invocations w ++ [i] /\
    receiver_of i = r /\
    (forall r', r' <> r -> objects w' r' = objects w r').
Proof.
  intros Hsome. destruct c as [e config|identifier]; simpl.
  - rewrite (show_delegates _ _ _ _ Hsome).
    eexists _, _, _. split; [reflexivity|]. simpl.
    repeat split; try done.
    intros r' Hne. by rewrite fn_lookup_insert_ne.
  - rewrite (hide_delegates _ _ _ Hsome).
    eexists _, _, _. split; [reflexivity|]. simpl.
    repeat split; try done.
    intros r' Hne. by rewrite fn_lookup_insert_ne.
Qed.

Lemma run_calls_mounted cs : forall w r,
  panel (service w) = Some r ->
  exists results w' new,
    run_calls cs w = Returned results w' /\
    panel (service w') = Some r /\
    invocations w' = invocations w ++ new /\
    length new = length cs /\
    Forall (fun i => receiver_of i = r) new /\
    (forall r', r' <> r -> objects w' r' = objects w r') /\
    length results = length cs /\
    Forall is_Some results.
Proof.
  induction cs as [|c cs IH]; intros w r Hsome.
  - exists [], w, []. simpl. rewrite app_nil_r. by repeat split.
  - destruct (run_call_mounted c w r Hsome)
      as (result & w1 & i & Hrun & Hsome1 & Hinv1 & Hrecv & Hobj1).
    destruct (IH w1 r Hsome1)
      as (results & w2 & new & Hruns & Hsome2 & Hinv2 & Hlen & Hall & Hobj2 & Hlen' & Hres).
    exists (Some result :: results), w2, (i :: new).
    split.
    { cbn [run_calls]. unfold bind at 1. rewrite Hrun.
      unfold bind at 1. by rewrite Hruns. }
    split; [done|]. split.
    { rewrite Hinv2, Hinv1. by rewrite <- app_assoc. }
    split; [simpl; by rewrite Hlen|].
    split; [by constructor|].
    split; [intros r' Hne; rewrite Hobj2, Hobj1; done|].
    split; [simpl; by rewrite Hlen'|].
    constructor; [by eexists|done].
Qed.

(** One call on a bound service is that call made on the bound presenter:
    same result, same effect on the presenter and on the generator, the
    matching invocation logged, nothing else touched. *)
Lemma run_call_mounted_exact c w r :
  panel (service w) = Some r ->
  exists w',
    run_call c w
    = Returned (Some (fst (fst (presenter_call c (objects w r) (random w))))) w' /\
    panel (service w') = Some r /\
    invocations w' = invocations w ++ [invocation_of r c] /\
    objects w' r = snd (fst (presenter_call c (objects w r) (random w))) /\
    random w' = snd (presenter_call c (objects w r) (random w)) /\
    (forall r', r' <> r -> objects w' r' = objects w r').
Proof.
  intros Hsome. destruct c as [e config|identifier]; cbn [run_call].
  - rewrite (show_delegates _ _ _ _ Hsome).
    eexists. split; [reflexivity|].
    cbn [service objects random invocations presenter_call invocation_of].
    split; [done|]. split; [done|].
    split; [by rewrite fn_lookup_insert|]. split; [done|].
    intros r' Hne. by rewrite fn_lookup_insert_ne.
  - rewrite (hide_delegates _ _ _ Hsome).
    eexists. split; [reflexivity|].
    cbn [service objects random invocations presenter_call invocation_of
         fst snd].
    split; [done|]. split; [done|].
    split; [by rewrite fn_lookup_insert|]. split; [done|].
    intros r' Hne. by rewrite fn_lookup_insert_ne.
Qed.

Lemma run_calls_mounted_exact cs : forall w r,
  panel (service w) = Some r ->
  exists w',
    run_calls cs w
    = Returned
        (map Some (fst (fst (presenter_calls cs (objects w r) (random w))))) w' /\
    panel (service w') = Some r /\
    invocations w' = invocations w ++ map (invocation_of r) cs /\
    objects w' r = snd (fst (presenter_calls cs (objects w r) (random w))) /\
    random w' = snd (presenter_calls cs (objects w r) (random w)) /\
    (forall r', r' <> r -> objects w' r' = objects w r').
Proof.
  induction cs as [|c cs IH]; intros w r Hsome.
  - exists w. cbn [run_calls presenter_calls map fst snd].
    rewrite app_nil_r. by repeat split.
  - destruct (run_call_mounted_exact c w r Hsome)
      as (w1 & Hrun & Hsome1 & Hinv1 & Hobj1 & Hrnd1 & Hrest1).
    destruct (IH w1 r Hsome1)
      as (w2 & Hruns & Hsome2 & Hinv2 & Hobj2 & Hrnd2 & Hrest2).
    rewrite Hobj1, Hrnd1 in Hruns, Hobj2, Hrnd2.
    exists w2. cbn [run_calls presenter_calls].
    destruct (presenter_call c (objects w r) (random w)) as [[result obj1] g1].
    cbn [fst snd] in *.
    destruct (presenter_calls cs obj1 g1) as [[results obj2] g2].
    cbn [fst snd map] in *.
    split.
    { unfold bind at 1. rewrite Hrun.
      unfold bind at 1. by rewrite Hruns. }
    split; [done|]. split.
    { rewrite Hinv2, Hinv1. by rewrite <- app_assoc. }
    split; [done|]. split; [done|].
    intros r' Hne. by rewrite Hrest2, Hrest1.
Qed.

Lemma receiver_of_invocation_of r c : receiver_of (invocation_of r c) = r.
Proof. by destruct c. Qed.

Lemma run_calls_unmounted cs w :
  panel (service w) = None ->
  run_calls cs w = Returned (replicate (length cs) None) w.
Proof.
  intros Hnone. induction cs as [|c cs IH]; [done|].
  cbn [run_calls]. unfold bind at 1.
  assert (run_call c w = Returned None w) as ->.
  { destruct c; simpl; [by apply show_unmounted|by apply hide_unmounted]. }
  unfold bind at 1. by rewrite IH.
Qed.
End ServiceFacts.

(** C2.  With no presenter mounted, [ModalService.show] and
    [ModalService.hide] return [undefined] for every argument, throw
    nothing and leave the world as it was. *)
Theorem unmounted_service_is_noop {P : Type} `{!ModalPresenting P}
    (w : World P) :
  panel (service w) = None ->
  (forall e config, ModalService.show e config w = Returned None w) /\
  (forall identifier, ModalService.hide identifier w = Returned None w).
Proof.
  intros Hnone. split.
  - intros e config. by apply show_unmounted.
  - intros identifier. by apply hide_unmounted.
Qed.

Lemma unmounted_service_is_noop_witness :
  ModalService.show (element_named "A") sample_config unmounted_world
    = Returned None unmounted_world /\
  ModalService.hide (Some "i") unmounted_world = Returned None unmounted_world.
Proof.
  destruct (unmounted_service_is_noop unmounted_world eq_refl) as [Hs Hh].
  split; [apply Hs | apply Hh].
Defined.

(** C4.  After [mount(P1)] then [mount(P2)], with P1 and P2 two presenters,
    every later [show] (and [hide]) returns and is delegated to P2 and to
    P2 only.  Each call is made on P2 as it stands: a [show] of an element
    and a configuration is logged as P2's [show] of that element and that
    configuration, a [hide] as P2's [hide] of that identifier; the results
    are the ones P2's own methods return, and P2 and the generator end up
    as those methods leave them.  No invocation is received by P1, and P1,
    like every object other than P2, is left exactly as it was. *)
Theorem mount_last_writer_wins {P : Type} `{!ModalPresenting P}
    (w : World P) (P1 P2 : ref) (calls : list ServiceCall) :
  P1 <> P2 ->
  exists results w' new,
    (let* _ := ModalService.mount (Some P1) in
     let* _ := ModalService.mount (Some P2) in
     run_calls calls) w = Returned results w' /\
    panel (service w') = Some P2 /\
    invocations w' = invocations w ++ new /\
    length new = length calls /\
    Forall (fun i => receiver_of i = P2) new /\
    Forall (fun i => receiver_of i <> P1) new /\
    objects w' P1 = objects w P1 /\
    Forall is_Some results /\
    new = map (invocation_of P2) calls /\
    results
    = map Some (fst (fst (presenter_calls calls (objects w P2) (random w)))) /\
    objects w' P2
    = snd (fst (presenter_calls calls (objects w P2) (random w))) /\
    random w' = snd (presenter_calls calls (objects w P2) (random w)) /\
    (forall r, r <> P2 -> objects w' r = objects w r).
Proof.
  intros Hne.
  destruct (run_calls_mounted_exact calls (bound_to (Some P2) w) P2 eq_refl)
    as (w' & Hruns & Hsome & Hinv & Hobj & Hrnd & Hrest).
  cbn [bound_to objects random invocations] in Hruns, Hinv, Hobj, Hrnd, Hrest.
  eexists _, w', _.
  split; [exact Hruns|]. split; [exact Hsome|]. split; [exact Hinv|].
  split; [by rewrite length_map|].
  split.
  { apply Forall_forall. intros i Hi. apply list_elem_of_In in Hi.
    apply in_map_iff in Hi as (c & <- & _). apply receiver_of_invocation_of. }
  split.
  { apply Forall_forall. intros i Hi. apply list_elem_of_In in Hi.
    apply in_map_iff in Hi as (c & <- & _).
    rewrite receiver_of_invocation_of. congruence. }
  split; [apply (Hrest P1 Hne)|].
  split.
  { apply Forall_forall. intros o Ho. apply list_elem_of_In in Ho.
    apply in_map_iff in Ho as (x & <- & _). by eexists. }
  by repeat split.
Qed.

Lemma mount_last_writer_wins_witness :
  exists results w' new,
    (let* _ := ModalService.mount (Some 1) in
     let* _ := ModalService.mount (Some 2) in
     run_calls [CallShow (element_named "A") sample_config;
                CallHide (Some "i");
                CallShow (element_named "B") sample_config])
      unmounted_world = Returned results w' /\
    panel (service w') = Some 2 /\
    invocations w' = invocations unmounted_world ++ new /\
    length new = 3 /\
    Forall (fun i => receiver_of i = 2) new /\
    Forall (fun i => receiver_of i <> 1) new /\
    objects w' 1 = objects unmounted_world 1 /\
    Forall is_Some results /\
    new = [InvokeShow 2 (element_named "A") sample_config;
           InvokeHide 2 (Some "i");
           InvokeShow 2 (element_named "B") sample_config] /\
    results = [Some "i"; Some ""; Some "9"] /\
    objects w' 2
    = {| ModalPanel.components :=
           [("9", ModalPanel.spread sample_config (element_named "B"))] |} /\
    random w'
    = snd (presenter_calls
             [CallShow (element_named "A") sample_config;
              CallHide (Some "i");
              CallShow (element_named "B") sample_config]
             (objects unmounted_world 2) (random unmounted_world)) /\
    (forall r, r <> 2 -> objects w' r = objects unmounted_world r).
Proof.
  refine (mount_last_writer_wins unmounted_world 1 2
            [CallShow (element_named "A") sample_config;
             CallHide (Some "i");
             CallShow (element_named "B") sample_config] _).
  discriminate.
Defined.

(** C9.  [unmount] clears the binding whoever asks: after P1 and P2 have
    mounted and a panel is torn down (P1, P2 or any other), the binding is
    none, and every [show] and [hide] that follows returns [undefined]
    without reaching any presenter; P2 is still there, untouched. *)
Theorem unmount_clears_binding_unconditionally {P : Type} `{!ModalPresenting P}
    (w : World P) (P1 P2 torn_down : ref) (calls : list ServiceCall) :
  (let* _ := componentDidMount P1 in
   let* _ := componentDidMount P2 in
   let* _ := componentWillUnmount torn_down in
   run_calls calls) w
  = Returned (replicate (length calls) None) (bound_to None w).
Proof.
  exact (run_calls_unmounted calls (bound_to None w) eq_refl).
Qed.

(** ** Placement *)
Section PlacementFacts.
Import PopoverPlacements.

Lemma all_complete (p : PopoverPlacement) : p ∈ all.
Proof.
  apply list_elem_of_In. destruct p as [[] []]; vm_compute; tauto.
Qed.

Lemma all_NoDup : NoDup all.
Proof. apply (bool_decide_unpack _). vm_compute. exact I. Qed.

Lemma opposite_involutive (s : Side) : opposite (opposite s) = s.
Proof. by destruct s. Qed.

Lemma opposite_differs (s : Side) : opposite s <> s.
Proof. by destruct s. Qed.

Lemma rawValue_inj (p q : PopoverPlacement) : rawValue p = rawValue q -> p = q.
Proof. destruct p as [[] []], q as [[] []]; vm_compute; congruence. Qed.

(** A raw value parses to the placement it spells. *)
Lemma parse_rawValue (p fallback : PopoverPlacement) :
  parse (RawString (rawValue p)) fallback = p.
Proof. destruct p as [[] []]; reflexivity. Qed.

Lemma parse_unrecognized (s : string) (fallback : PopoverPlacement) :
  (forall p, rawValue p <> s) -> parse (RawString s) fallback = fallback.
Proof.
  intros Hnew. unfold parse.
  destruct (List.find _ all) as [p|] eqn:Hfind; [|done].
  apply List.find_some in Hfind as [_ Hp].
  apply bool_decide_eq_true in Hp. by destruct (Hnew p).
Qed.
End PlacementFacts.

(** C6.  Every placement is one of the 12 values, and [reverse] is an
    involution on them that turns the primary side to the opposite one,
    keeps the secondary alignment, and is the only placement doing so. *)
Theorem reverse_reverse (p : PopoverPlacement) :
  p ∈ PopoverPlacements.all /\
  length PopoverPlacements.all = 12 /\
  NoDup PopoverPlacements.all /\
  PopoverPlacements.reverse (PopoverPlacements.reverse p) = p /\
  side (PopoverPlacements.reverse p) = PopoverPlacements.opposite (side p) /\
  side (PopoverPlacements.reverse p) <> side p /\
  alignment (PopoverPlacements.reverse p) = alignment p /\
  (forall q,
     side q = PopoverPlacements.opposite (side p) ->
     alignment q = alignment p ->
     q = PopoverPlacements.reverse p).
Proof.
  split; [apply all_complete|]. split; [reflexivity|].
  split; [apply all_NoDup|].
  split.
  { destruct p as [s a]. unfold PopoverPlacements.reverse. simpl.
    by rewrite opposite_involutive. }
  split; [reflexivity|]. split; [apply opposite_differs|].
  split; [reflexivity|].
  intros [s a] Hs Ha. simpl in *. subst. reflexivity.
Qed.

(** The indicator of lines 227-228 turned round again is the placement the
    popover was given. *)
Lemma indicatorPlacement_reverse (this : Popover.PopoverComponent) :
  PopoverPlacements.reverse (Popover.indicatorPlacement this) =
  PopoverPlacements.parse (Popover.placement (Popover.props this))
    Popover.PLACEMENT_DEFAULT.
Proof.
  unfold Popover.indicatorPlacement.
  destruct (PopoverPlacements.parse _ _) as [s a].
  unfold PopoverPlacements.reverse. simpl. by rewrite opposite_involutive.
Qed.

(** C7.  A placement string that spells none of the 12 values parses to
    the default placement, bottom centred, and the popover's frame for it
    is the frame for "bottom": the same rectangle when both frames were
    measured, the same failure when one was not, and no failure of its
    own. *)
Theorem unrecognized_placement_resolves_to_default (s : string) :
  (forall p, PopoverPlacements.rawValue p <> s) ->
  PopoverPlacements.parse (PopoverPlacements.RawString s) Popover.PLACEMENT_DEFAULT
    = {| side := Bottom; alignment := AlignNone |} /\
  (forall Offsets_find apply_offsets layout this,
     Popover.getPopoverFrame Offsets_find apply_offsets layout
       (PopoverPlacements.RawString s) this
     = Popover.getPopoverFrame Offsets_find apply_offsets layout
         (PopoverPlacements.RawString "bottom") this) /\
  (forall Offsets_find apply_offsets layout this popoverFrame childFrame,
     layout !! Popover.TAG_CONTENT = Some popoverFrame ->
     layout !! Popover.TAG_CHILD = Some childFrame ->
     Popover.getPopoverFrame Offsets_find apply_offsets layout
       (PopoverPlacements.RawString s) this
     = inr (PopoverPlacements.frame apply_offsets PopoverPlacements.BOTTOM
              popoverFrame childFrame
              (Offsets_find (style (Popover.children (Popover.props this)))))).
Proof.
  intros Hnew.
  pose proof (parse_unrecognized s Popover.PLACEMENT_DEFAULT Hnew) as Hparse.
  split; [exact Hparse|]. split.
  - intros. unfold Popover.getPopoverFrame. by rewrite Hparse.
  - intros ? ? ? ? ? ? Hcontent Hchild. unfold Popover.getPopoverFrame.
    by rewrite Hcontent, Hchild, Hparse.
Qed.

Lemma diagonal_unrecognized (p : PopoverPlacement) :
  PopoverPlacements.rawValue p <> "diagonal".
Proof. destruct p as [[] []]; vm_compute; discriminate. Qed.

Lemma unrecognized_placement_resolves_to_default_witness :
  PopoverPlacements.parse (PopoverPlacements.RawString "diagonal")
    Popover.PLACEMENT_DEFAULT
  = {| side := Bottom; alignment := AlignNone |}.
Proof.
  exact (proj1 (unrecognized_placement_resolves_to_default "diagonal"
                  diagonal_unrecognized)).
Defined.

(** ** Popover *)
Section PopoverFacts.
Import Popover.
Variable Offsets_find : option ViewStyle -> OffsetRect.
Variable apply_offsets : OffsetRect -> Frame -> Frame.
Context {P : Type} `{!ModalPresenting P}.

(** The guard of [onMeasure]: without [visible] the callback is inert. *)
Lemma onMeasure_not_visible layout (this : PopoverComponent) (w : World P) :
  visible (props this) = false ->
  onMeasure Offsets_find apply_offsets layout this w = Returned this w.
Proof. intros Hv. unfold onMeasure. by rewrite Hv. Qed.

Lemma render_not_visible (this : PopoverComponent) :
  visible (props this) = false -> render this = this.
Proof. intros Hv. unfold render. by rewrite Hv. Qed.
End PopoverFacts.

Lemma filter_is_show_hide (l : list Invocation) (r : ref) (i : option string) :
  List.filter is_show (l ++ [InvokeHide r i]) = List.filter is_show l.
Proof. rewrite List.filter_app. simpl. apply app_nil_r. Qed.

(** C5.  A popover whose [visible] prop is switched off before the
    measurement callback fires: React re-renders it, runs
    [componentDidUpdate] with the previous props, and the callback comes
    afterwards.  The whole run returns, no [show] reaches any presenter
    and no panel gains a key. *)
Theorem retracted_request_never_registers
    (Offsets_find : option ViewStyle -> OffsetRect)
    (apply_offsets : OffsetRect -> Frame -> Frame)
    (this : Popover.PopoverComponent)
    (w : World ModalPanel.ModalPanelState)
    (layout : Popover.MeasureResult) :
  let prevProps := Popover.props this in
  let retracted :=
    Popover.render
      (Popover.with_props (Popover.set_visible false prevProps) this) in
  exists this' w',
    (let* updated := Popover.componentDidUpdate prevProps retracted in
     Popover.onMeasure Offsets_find apply_offsets layout updated) w
    = Returned this' w' /\
    List.filter is_show (invocations w') = List.filter is_show (invocations w) /\
    (forall r k,
       k ∈ JsMap.keys (ModalPanel.components (objects w' r)) ->
       k ∈ JsMap.keys (ModalPanel.components (objects w r))) /\
    Popover.visible (Popover.props this') = false.
Proof.
  cbv zeta.
  set (off := Popover.with_props _ this).
  assert (Popover.visible (Popover.props off) = false) as Hoff by reflexivity.
  rewrite (render_not_visible off Hoff).
  unfold bind at 1. unfold Popover.componentDidUpdate. rewrite Hoff.
  destruct (Popover.visible (Popover.props this)); simpl.
  - destruct (panel (service w)) as [r|] eqn:Hpanel.
    + unfold bind at 1. rewrite (hide_delegates _ _ _ Hpanel).
      unfold ret. rewrite onMeasure_not_visible by reflexivity.
      eexists _, _. split; [reflexivity|]. simpl.
      split; [apply filter_is_show_hide|]. split; [|reflexivity].
      intros r' k. destruct (decide (r' = r)) as [->|Hne].
      * rewrite fn_lookup_insert. simpl. intros Hin.
        apply elem_of_keys_delete in Hin. tauto.
      * by rewrite fn_lookup_insert_ne.
    + unfold bind at 1. rewrite (hide_unmounted _ _ Hpanel).
      unfold ret. rewrite onMeasure_not_visible by reflexivity.
      eexists _, _. split; [reflexivity|]. simpl. by repeat split.
  - unfold ret. rewrite onMeasure_not_visible by reflexivity.
    eexists _, _. split; [reflexivity|]. by repeat split.
Qed.

(** ** View pager *)
Section ViewPagerFacts.
Import ViewPager.
Local Open Scope Q_scope.

Lemma Qlt_bool_iff (a b : Q) : Qlt_bool a b = true <-> a < b.
Proof.
  unfold Qlt_bool. rewrite negb_true_iff.
  split.
  - intros Hle. apply Qnot_le_lt. intros H.
    apply Qle_bool_iff in H. congruence.
  - intros Hlt. destruct (Qle_bool b a) eqn:Hle; [|done].
    apply Qle_bool_iff in Hle. by apply Qlt_not_le in Hlt.
Qed.

Lemma release_flips_iff (state : PanResponderGestureState) (this : ViewPager) :
  release_flips state this = true <->
  (1 # 2) <= Qabs (vx state) \/
  (1 # 2) * contentWidth this <= Qabs (dx state).
Proof.
  unfold release_flips. rewrite orb_true_iff, !Qle_bool_iff. tauto.
Qed.
End ViewPagerFacts.

(** C10.  On release the pager scrolls, animated, to the page before the
    selected one when the gesture is fast or long enough and went right
    ([dx > 0]), to the page after it when it is fast or long enough and
    did not go right, and back to the selected page otherwise; so it
    leaves the selected page exactly when [|vx| >= 0.5] or
    [|dx| >= 0.5 * contentWidth]. *)
Theorem onPanResponderRelease_adjacent_page
    (state : ViewPager.PanResponderGestureState) (this : ViewPager.ViewPager) :
  let moved :=
    ((1 # 2) <= Qabs (ViewPager.vx state) \/
     (1 # 2) * ViewPager.contentWidth this <= Qabs (ViewPager.dx state))%Q in
  let target := ViewPager.index (ViewPager.release_params state this) in
  ViewPager.onPanResponderRelease state this
    = ViewPager.scrollToIndex
        {| ViewPager.index := target; ViewPager.animated := Some true |} this /\
  (moved -> (0 < ViewPager.dx state)%Q ->
   target = (ViewPager.selectedIndex this - 1)%Z) /\
  (moved -> ~ (0 < ViewPager.dx state)%Q ->
   target = (ViewPager.selectedIndex this + 1)%Z) /\
  (~ moved -> target = ViewPager.selectedIndex this) /\
  (target <> ViewPager.selectedIndex this <-> moved).
Proof.
  cbv zeta. unfold ViewPager.onPanResponderRelease, ViewPager.release_params.
  pose proof (release_flips_iff state this) as Hflip.
  pose proof (Qlt_bool_iff 0 (ViewPager.dx state)) as Hright.
  destruct (ViewPager.release_flips state this);
    destruct (ViewPager.Qlt_bool 0 (ViewPager.dx state)); simpl.
  - split; [reflexivity|]. split; [done|]. split.
    + intros _ Hn. destruct Hn. by apply Hright.
    + split; [intros Hn; destruct Hn; by apply Hflip|].
      split; [intros _; by apply Hflip | intros _; lia].
  - split; [reflexivity|]. split.
    + intros _ Hpos. apply Hright in Hpos. discriminate.
    + split; [done|].
      split; [intros Hn; destruct Hn; by apply Hflip|].
      split; [intros _; by apply Hflip | intros _; lia].
  - split; [reflexivity|]. split.
    + intros Hm. apply Hflip in Hm. discriminate.
    + split; [intros Hm; apply Hflip in Hm; discriminate|].
      split; [done|].
      split; [done | intros Hm; apply Hflip in Hm; discriminate].
  - split; [reflexivity|]. split.
    + intros Hm. apply Hflip in Hm. discriminate.
    + split; [intros Hm; apply Hflip in Hm; discriminate|].
      split; [done|].
      split; [done | intros Hm; apply Hflip in Hm; discriminate].
Qed.

Lemma onPanResponderRelease_adjacent_page_witness :
  ViewPager.index (ViewPager.release_params fast_swipe_right sample_pager) = 1%Z /\
  ViewPager.index (ViewPager.release_params long_drag_left sample_pager) = 3%Z /\
  ViewPager.index (ViewPager.release_params short_drag sample_pager) = 2%Z.
Proof.
  split; [|split].
  - apply (proj1 (proj2
             (onPanResponderRelease_adjacent_page fast_swipe_right sample_pager))).
    + left. vm_compute. discriminate.
    + vm_compute. reflexivity.
  - apply (proj1 (proj2 (proj2
             (onPanResponderRelease_adjacent_page long_drag_left sample_pager)))).
    + right. vm_compute. discriminate.
    + vm_compute. discriminate.
  - apply (proj1 (proj2 (proj2 (proj2
             (onPanResponderRelease_adjacent_page short_drag sample_pager))))).
    intros [H|H]; vm_compute in H; apply H; reflexivity.
Defined.

(** * Further properties *)

(** ** Looking records up *)
Section MapGetFacts.
Context {V : Type}.
Implicit Types (m : JsMap.t V) (k : string) (v : V).

Lemma map_get_set_eq k v m : map_get k (JsMap.set k v m) = Some v.
Proof.
  induction m as [|[k' v'] m IH]; simpl.
  - by rewrite decide_True.
  - destruct (decide (k' = k)) as [->|Hne]; simpl.
    + by rewrite decide_True.
    + by rewrite decide_False.
Qed.

Lemma map_get_set_ne k k0 v m :
  k0 <> k -> map_get k0 (JsMap.set k v m) = map_get k0 m.
Proof.
  intros Hne. induction m as [|[k' v'] m IH]; simpl.
  - by rewrite decide_False.
  - destruct (decide (k' = k)) as [->|Hk]; simpl.
    + by rewrite !decide_False.
    + destruct (decide (k' = k0)); [done|apply IH].
Qed.

Lemma map_get_delete (key : option string) k m :
  map_get k (JsMap.delete key m) =
  if decide (key = Some k) then None else map_get k m.
Proof.
  unfold JsMap.delete. induction m as [|[k' v'] m IH].
  - simpl. by destruct (decide (key = Some k)).
  - rewrite filter_cons. cbn [fst].
    destruct (decide (Some k' <> key)) as [Hkeep|Hdrop]; cbn [map_get].
    + destruct (decide (k' = k)) as [->|Hne]; [|apply IH].
      rewrite decide_False; [done|congruence].
    + rewrite IH. apply dec_stable in Hdrop.
      destruct (decide (key = Some k)) as [Hk|Hk]; [done|].
      rewrite decide_False; [done|]. intros ->. congruence.
Qed.

Lemma delete_appended k v m :
  k ∉ JsMap.keys m -> JsMap.delete (Some k) (m ++ [(k, v)]) = m.
Proof.
  intros Hfresh. unfold JsMap.delete. rewrite filter_app.
  rewrite filter_cons_False by (simpl; intros Hne; by apply Hne).
  rewrite filter_nil, app_nil_r.
  apply (delete_absent (Some k) m). intros k0 Hk. by injection Hk as <-.
Qed.
End MapGetFacts.

(** X1.  Whatever the draw, after [show] the returned identifier is a key
    of the map and leads to the record made of the configuration and the
    element just passed; the records under all other keys are the ones
    that were there. *)
Theorem show_registers_under_returned_identifier
    (e : ReactElement) (config : ModalPresentingConfig)
    (this : ModalPanel.ModalPanelState) (g : Prng) :
  let identifier := fst (fst (ModalPanel.show e config this g)) in
  let this' := snd (fst (ModalPanel.show e config this g)) in
  map_get identifier (ModalPanel.components this')
    = Some (ModalPanel.spread config e) /\
  identifier ∈ JsMap.keys (ModalPanel.components this') /\
  (forall k, k <> identifier ->
     map_get k (ModalPanel.components this')
     = map_get k (ModalPanel.components this)) /\
  (forall k, k ∈ JsMap.keys (ModalPanel.components this) ->
     k ∈ JsMap.keys (ModalPanel.components this')).
Proof.
  cbv zeta. rewrite show_components.
  split; [apply map_get_set_eq|].
  split; [apply elem_of_keys_set; by left|].
  split; [intros k Hne; by apply map_get_set_ne|].
  intros k Hin. apply elem_of_keys_set. by right.
Qed.

Lemma show_then_hide_restores_aux
    (e : ReactElement) (config : ModalPresentingConfig)
    (this : ModalPanel.ModalPanelState) (g : Prng) :
  fst (ModalPanel.generateUniqueComponentKey g)
    ∉ JsMap.keys (ModalPanel.components this) ->
  snd (ModalPanel.hide (Some (fst (fst (ModalPanel.show e config this g))))
         (snd (fst (ModalPanel.show e config this g))))
  = this.
Proof.
  intros Hfresh. unfold ModalPanel.hide. cbn [snd].
  rewrite (show_fresh_appends e config this g Hfresh).
  rewrite (delete_appended _ _ _ Hfresh). by destruct this.
Qed.

(** X2.  When the key that [show] draws is not in use, hiding the returned
    identifier puts the panel back exactly as it was before the [show]. *)
Theorem show_then_hide_restores
    (e : ReactElement) (config : ModalPresentingConfig)
    (this : ModalPanel.ModalPanelState) (g : Prng) :
  fst (fst (ModalPanel.show e config this g))
    ∉ JsMap.keys (ModalPanel.components this) ->
  ModalPanel.hide (Some (fst (fst (ModalPanel.show e config this g))))
    (snd (fst (ModalPanel.show e config this g)))
  = ("", this).
Proof.
  intros Hfresh. unfold ModalPanel.hide. f_equal.
  rewrite (show_fresh_appends _ _ _ _ Hfresh).
  rewrite (delete_appended _ _ _ Hfresh). by destruct this.
Qed.

Lemma show_then_hide_restores_witness :
  ModalPanel.hide (Some "i")
    (snd (fst (ModalPanel.show (element_named "A") sample_config
                 ModalPanel.initial (tape [ONE_HALF]))))
  = ("", ModalPanel.initial).
Proof.
  apply (show_then_hide_restores (element_named "A") sample_config
           ModalPanel.initial (tape [ONE_HALF])).
  change ("i" ∉ @nil string). apply not_elem_of_nil.
Defined.

(** X3.  [hide] takes out the identifier it is given and nothing else:
    afterwards that identifier leads nowhere, and every other key leads to
    the record it led to before. *)
Theorem hide_removes_only_the_identifier
    (identifier : option string) (this : ModalPanel.ModalPanelState)
    (k : string) :
  map_get k (ModalPanel.components (snd (ModalPanel.hide identifier this)))
  = if decide (identifier = Some k) then None
    else map_get k (ModalPanel.components this).
Proof. simpl. apply map_get_delete. Qed.

(** ** Rendering the modals *)
Section RenderFacts.
Import ModalPanel.

Lemma map_indexed_length {A B : Type} (f : A -> nat -> B) (l : list A) :
  forall from, length (map_indexed f from l) = length l.
Proof. induction l as [|a l IH]; intros from; simpl; [done|by rewrite IH]. Qed.

Lemma map_indexed_app {A B : Type} (f : A -> nat -> B) (l1 l2 : list A) :
  forall from,
    map_indexed f from (l1 ++ l2) =
    map_indexed f from l1 ++ map_indexed f (from + length l1) l2.
Proof.
  induction l1 as [|a l1 IH]; intros from; simpl.
  - by rewrite Nat.add_0_r.
  - rewrite IH. by rewrite Nat.add_succ_r.
Qed.

Lemma map_indexed_lookup {A B : Type} (f : A -> nat -> B) (l : list A) :
  forall from i,
    map_indexed f from l !! i = (fun a => f a (from + i)) <$> (l !! i).
Proof.
  induction l as [|a l IH]; intros from i; [done|].
  destruct i as [|i]; simpl.
  - by rewrite Nat.add_0_r.
  - rewrite IH. by rewrite Nat.add_succ_r.
Qed.

Lemma map_indexed_keys (l : list ModalPanelChild) :
  forall from,
    map resolver_key (map_indexed renderModal from l) = seq from (length l).
Proof. induction l as [|c l IH]; intros from; simpl; [done|by rewrite IH]. Qed.

Lemma map_indexed_visible (l : list ModalPanelChild) :
  forall from,
    Forall (fun r => resolver_visible r = true) (map_indexed renderModal from l).
Proof.
  induction l as [|c l IH]; intros from; simpl; constructor; [done|apply IH].
Qed.
End RenderFacts.

(** X4.  [renderModals] builds one visible [ModalResolver] per record, in
    the order of the map; the React key of each is its position, not its
    identifier.  The guard in [render] never hides a registered modal:
    what is rendered after the children is [renderModals] in every
    state. *)
Theorem renderModals_one_resolver_per_record
    (children : list ReactElement) (this : ModalPanel.ModalPanelState) :
  length (ModalPanel.renderModals this)
    = JsMap.size (ModalPanel.components this) /\
  map ModalPanel.resolver_key (ModalPanel.renderModals this)
    = seq 0 (JsMap.size (ModalPanel.components this)) /\
  Forall (fun r => ModalPanel.resolver_visible r = true)
    (ModalPanel.renderModals this) /\
  (forall i record,
     JsMap.values (ModalPanel.components this) !! i = Some record ->
     ModalPanel.renderModals this !! i = Some (ModalPanel.renderModal record i)) /\
  ModalPanel_render children this = (children, ModalPanel.renderModals this).
Proof.
  unfold ModalPanel.renderModals, JsMap.size, JsMap.values.
  split; [by rewrite map_indexed_length, length_map|].
  split; [by rewrite map_indexed_keys, length_map|].
  split; [apply map_indexed_visible|].
  split.
  - intros i record Hi. rewrite map_indexed_lookup. by rewrite Hi.
  - unfold ModalPanel_render, ModalPanel.areThereAnyComponents,
      ModalPanel.renderModals, JsMap.size, JsMap.values.
    by destruct (ModalPanel.components this).
Qed.

(** X5.  Hiding a modal renumbers the ones above it.  In a map with
    distinct keys, the modals under the hidden one are rendered as before;
    each modal above it is rendered with the same record and a React key
    one less than before. *)
Theorem hide_shifts_keys_of_modals_above
    (this : ModalPanel.ModalPanelState)
    (below above : JsMap.t ModalPanel.ModalPanelChild)
    (k : string) (record : ModalPanel.ModalPanelChild) :
  ModalPanel.components this = below ++ (k, record) :: above ->
  NoDup (JsMap.keys (ModalPanel.components this)) ->
  ModalPanel.renderModals this
  = ModalPanel.map_indexed ModalPanel.renderModal 0 (JsMap.values below)
    ++ ModalPanel.renderModal record (length below)
    :: ModalPanel.map_indexed ModalPanel.renderModal (S (length below))
         (JsMap.values above) /\
  ModalPanel.renderModals (snd (ModalPanel.hide (Some k) this))
  = ModalPanel.map_indexed ModalPanel.renderModal 0 (JsMap.values below)
    ++ ModalPanel.map_indexed ModalPanel.renderModal (length below)
         (JsMap.values above).
Proof.
  intros Hsplit Hnd. rewrite Hsplit in Hnd.
  unfold ModalPanel.renderModals, JsMap.values, JsMap.keys in *.
  split.
  - rewrite Hsplit, map_app, map_indexed_app, length_map. reflexivity.
  - simpl. rewrite Hsplit.
    rewrite map_app in Hnd. simpl in Hnd.
    apply NoDup_app in Hnd as (_ & Hbelow & Habove).
    apply NoDup_cons in Habove as [Habove _].
    assert (k ∉ map fst below) as Hk.
    { intros Hin. apply (Hbelow k Hin). apply elem_of_cons. by left. }
    unfold JsMap.delete. rewrite filter_app, filter_cons_False
      by (simpl; intros Hne; by apply Hne).
    fold (JsMap.delete (Some k) below). fold (JsMap.delete (Some k) above).
    rewrite (delete_absent (Some k) below)
      by (intros k0 Hk0; by injection Hk0 as <-).
    rewrite (delete_absent (Some k) above)
      by (intros k0 Hk0; by injection Hk0 as <-).
    by rewrite map_app, map_indexed_app, length_map.
Qed.

(** ** Overlays across presenters *)

Lemma bind_Returned {P A B : Type} (m : M P A) (k : A -> M P B)
    (w w' : World P) (a : A) :
  m w = Returned a w' -> bind m k w = k a w'.
Proof. intros Hm. unfold bind. by rewrite Hm. Qed.

Lemma bind_Thrown {P A B : Type} (m : M P A) (k : A -> M P B)
    (w w' : World P) (e : JsError) :
  m w = Thrown e w' -> bind m k w = Thrown e w'.
Proof. intros Hm. unfold bind. by rewrite Hm. Qed.

Lemma mount_run {P : Type} (p : option ref) (w : World P) :
  ModalService.mount p w = Returned tt (bound_to p w).
Proof. reflexivity. Qed.

(** X6.  An overlay shown on one presenter is out of reach once another
    presenter has mounted: [hide] with its identifier returns the empty
    string as usual, but it is the new presenter that is asked, and the
    record stays in the first one. *)
Theorem overlay_stranded_after_remount
    (w : World ModalPanel.ModalPanelState) (P1 P2 : ref)
    (e : ReactElement) (config : ModalPresentingConfig) :
  P1 <> P2 ->
  exists identifier w',
    (let* _ := ModalService.mount (Some P1) in
     let* shown := ModalService.show e config in
     let* _ := ModalService.mount (Some P2) in
     let* hidden := ModalService.hide shown in
     ret (shown, hidden)) w
    = Returned (Some identifier, Some "") w' /\
    map_get identifier (ModalPanel.components (objects w' P1))
      = Some (ModalPanel.spread config e) /\
    invocations w'
      = invocations w ++ [InvokeShow P1 e config; InvokeHide P2 (Some identifier)].
Proof.
  intros Hne.
  rewrite (bind_Returned _ _ _ _ _ (mount_run (Some P1) w)).
  rewrite (bind_Returned _ _ _ _ _
             (show_delegates e config (bound_to (Some P1) w) P1 eq_refl)).
  match goal with
  | |- context [bind (ModalService.mount (Some P2)) _ ?w1] =>
      rewrite (bind_Returned _ _ _ _ _ (mount_run (Some P2) w1));
      rewrite (bind_Returned _ _ _ _ _
                 (hide_delegates _ (bound_to (Some P2) w1) P2 eq_refl))
  end.
  unfold ret. cbn [presenting_show presenting_hide ModalPanel_presenting
                   bound_to service objects random invocations].
  eexists _, _. split; [reflexivity|].
  cbn [objects invocations]. split.
  - rewrite fn_lookup_insert_ne by done. rewrite fn_lookup_insert.
    rewrite show_components. apply map_get_set_eq.
  - by rewrite <- app_assoc.
Qed.

Lemma overlay_stranded_after_remount_witness :
  exists identifier w',
    (let* _ := ModalService.mount (Some 1) in
     let* shown := ModalService.show (element_named "A") sample_config in
     let* _ := ModalService.mount (Some 2) in
     let* hidden := ModalService.hide shown in
     ret (shown, hidden)) unmounted_world
    = Returned (Some identifier, Some "") w' /\
    map_get identifier (ModalPanel.components (objects w' 1))
      = Some (ModalPanel.spread sample_config (element_named "A")) /\
    invocations w'
      = invocations unmounted_world
        ++ [InvokeShow 1 (element_named "A") sample_config;
            InvokeHide 2 (Some identifier)].
Proof.
  apply (overlay_stranded_after_remount unmounted_world 1 2
           (element_named "A") sample_config).
  discriminate.
Defined.

(** ** The popover and the panel *)
Section PopoverPanelFacts.
Import Popover.
Variable Offsets_find : option ViewStyle -> OffsetRect.
Variable apply_offsets : OffsetRect -> Frame -> Frame.

Lemma bind_ret {P A B : Type} (a : A) (k : A -> M P B) : bind (ret a) k = k a.
Proof. reflexivity. Qed.

Lemma onMeasure_mounted (this : PopoverComponent)
    (w : World ModalPanel.ModalPanelState) (layout : MeasureResult)
    (r : ref) (element : ReactElement) (frame : Frame) :
  visible (props this) = true ->
  popoverElement this = Some element ->
  getPopoverFrame Offsets_find apply_offsets layout (placement (props this)) this
    = inr frame ->
  panel (service w) = Some r ->
  let popover := cloneElement element (overlay_style frame) in
  onMeasure Offsets_find apply_offsets layout this w
  = Returned
      (with_popoverModalId
         (Some (fst (fst (ModalPanel.show popover (overlay_config this)
                            (objects w r) (random w)))))
         this)
      (after_show r popover (overlay_config this) w).
Proof.
  intros Hv Hel Hframe Hpanel. cbv zeta.
  unfold onMeasure. rewrite Hv. unfold showPopoverModal.
  rewrite Hframe, Hel. cbn [lift cloneElement_of]. rewrite !bind_ret.
  fold (overlay_style frame). fold (overlay_config this).
  erewrite bind_Returned; [|by apply show_delegates].
  reflexivity.
Qed.
End PopoverPanelFacts.

(** X7.  A visible popover whose element has been rendered and whose frame
    could be computed, measured while a panel is mounted: [onMeasure]
    returns, the popover keeps the identifier the panel returned, and under
    that identifier the panel holds the popover's element moved to the
    origin of the frame with opacity 1, together with the popover's own
    backdrop settings.  Exactly one call reached the panel, and no other
    object changed. *)
Theorem onMeasure_registers_positioned_overlay
    (Offsets_find : option ViewStyle -> OffsetRect)
    (apply_offsets : OffsetRect -> Frame -> Frame)
    (this : Popover.PopoverComponent)
    (w : World ModalPanel.ModalPanelState) (layout : Popover.MeasureResult)
    (r : ref) (element : ReactElement) (frame : Frame) :
  Popover.visible (Popover.props this) = true ->
  Popover.popoverElement this = Some element ->
  Popover.getPopoverFrame Offsets_find apply_offsets layout
    (Popover.placement (Popover.props this)) this = inr frame ->
  panel (service w) = Some r ->
  exists identifier w',
    Popover.onMeasure Offsets_find apply_offsets layout this w
    = Returned (Popover.with_popoverModalId (Some identifier) this) w' /\
    map_get identifier (ModalPanel.components (objects w' r))
    = Some
        {| ModalPanel.child_allowBackdrop :=
             Popover.props_allowBackdrop (Popover.props this);
           ModalPanel.child_onBackdropPress :=
             Popover.props_onBackdropPress (Popover.props this);
           ModalPanel.element := cloneElement element (overlay_style frame) |} /\
    invocations w'
    = invocations w
      ++ [InvokeShow r (cloneElement element (overlay_style frame))
            (overlay_config this)] /\
    (forall r', r' <> r -> objects w' r' = objects w r').
Proof.
  intros Hv Hel Hframe Hpanel.
  eexists _, _. split.
  { apply (onMeasure_mounted Offsets_find apply_offsets this w layout r
             element frame Hv Hel Hframe Hpanel). }
  unfold after_show. cbn [objects invocations].
  split.
  - rewrite fn_lookup_insert, show_components. apply map_get_set_eq.
  - split; [reflexivity|]. intros r' Hne. by rewrite fn_lookup_insert_ne.
Qed.

(** X8.  The same popover, when the key drawn for it is not in use on the
    panel: showing it and then switching [visible] off (render, then
    [componentDidUpdate] with the previous props) returns, leaves the
    popover with the empty identifier, and leaves every object, the panel
    included, exactly as before the popover was shown. *)
Theorem popover_show_then_hide_restores_panel
    (Offsets_find : option ViewStyle -> OffsetRect)
    (apply_offsets : OffsetRect -> Frame -> Frame)
    (this : Popover.PopoverComponent)
    (w : World ModalPanel.ModalPanelState) (layout : Popover.MeasureResult)
    (r : ref) (element : ReactElement) (frame : Frame) :
  Popover.visible (Popover.props this) = true ->
  Popover.popoverElement this = Some element ->
  Popover.getPopoverFrame Offsets_find apply_offsets layout
    (Popover.placement (Popover.props this)) this = inr frame ->
  panel (service w) = Some r ->
  fst (ModalPanel.generateUniqueComponentKey (random w))
    ∉ JsMap.keys (ModalPanel.components (objects w r)) ->
  exists this' w',
    (let* shown := Popover.onMeasure Offsets_find apply_offsets layout this in
     let retracted :=
       Popover.render
         (Popover.with_props
            (Popover.set_visible false (Popover.props shown)) shown) in
     Popover.componentDidUpdate (Popover.props shown) retracted) w
    = Returned this' w' /\
    Popover.popoverModalId this' = Some "" /\
    Popover.visible (Popover.props this') = false /\
    (forall r', objects w' r' = objects w r') /\
    panel (service w') = Some r.
Proof.
  intros Hv Hel Hframe Hpanel Hfresh.
  rewrite (bind_Returned _ _ _ _ _
             (onMeasure_mounted Offsets_find apply_offsets this w layout r
                element frame Hv Hel Hframe Hpanel)).
  cbv zeta.
  set (popover := cloneElement element (overlay_style frame)).
  set (shown := Popover.with_popoverModalId _ this).
  set (off := Popover.with_props _ shown).
  assert (Popover.visible (Popover.props off) = false) as Hoff by reflexivity.
  rewrite (render_not_visible off Hoff).
  unfold Popover.componentDidUpdate. rewrite Hoff.
  assert (Popover.visible (Popover.props shown) = true) as -> by exact Hv.
  cbn [Bool.eqb negb].
  erewrite bind_Returned;
    [|apply (hide_delegates _ (after_show r popover (overlay_config this) w) r);
      exact Hpanel].
  unfold ret. eexists _, _. split; [reflexivity|].
  split; [reflexivity|]. split; [reflexivity|]. split; [|exact Hpanel].
  intros r'. cbn [objects after_show presenting_hide ModalPanel_presenting].
  destruct (decide (r' = r)) as [->|Hne].
  - rewrite !fn_lookup_insert.
    cbn [Popover.popoverModalId off shown Popover.with_props
         Popover.with_popoverModalId].
    by rewrite (show_then_hide_restores_aux popover (overlay_config this)
                  (objects w r) (random w) Hfresh).
  - by rewrite !fn_lookup_insert_ne.
Qed.

Lemma onMeasure_registers_positioned_overlay_witness :
  exists identifier w',
    Popover.onMeasure find_no_offsets leave_frame sample_layout sample_popover
      mounted_world
    = Returned (Popover.with_popoverModalId (Some identifier) sample_popover) w' /\
    map_get identifier (ModalPanel.components (objects w' 0))
    = Some
        {| ModalPanel.child_allowBackdrop := true;
           ModalPanel.child_onBackdropPress := 7;
           ModalPanel.element :=
             cloneElement (Popover.renderPopoverElement sample_popover)
               (overlay_style sample_frame) |} /\
    invocations w'
    = invocations mounted_world
      ++ [InvokeShow 0
            (cloneElement (Popover.renderPopoverElement sample_popover)
               (overlay_style sample_frame))
            (overlay_config sample_popover)] /\
    (forall r', r' <> 0 -> objects w' r' = objects mounted_world r').
Proof.
  apply (onMeasure_registers_positioned_overlay find_no_offsets leave_frame
           sample_popover mounted_world sample_layout 0
           (Popover.renderPopoverElement sample_popover) sample_frame);
    reflexivity.
Defined.

Lemma popover_show_then_hide_restores_panel_witness :
  exists this' w',
    (let* shown :=
       Popover.onMeasure find_no_offsets leave_frame sample_layout sample_popover in
     let retracted :=
       Popover.render
         (Popover.with_props
            (Popover.set_visible false (Popover.props shown)) shown) in
     Popover.componentDidUpdate (Popover.props shown) retracted) mounted_world
    = Returned this' w' /\
    Popover.popoverModalId this' = Some "" /\
    Popover.visible (Popover.props this') = false /\
    (forall r', objects w' r' = objects mounted_world r') /\
    panel (service w') = Some 0.
Proof.
  apply (popover_show_then_hide_restores_panel find_no_offsets leave_frame
           sample_popover mounted_world sample_layout 0
           (Popover.renderPopoverElement sample_popover) sample_frame);
    try reflexivity.
  apply not_elem_of_nil.
Defined.

Lemma hide_shifts_keys_of_modals_above_witness :
  ModalPanel.renderModals (snd (ModalPanel.hide (Some "9") stacked_panel))
  = [ModalPanel.renderModal
       (ModalPanel.spread sample_config (element_named "A")) 0;
     ModalPanel.renderModal
       (ModalPanel.spread sample_config (element_named "C")) 1].
Proof.
  refine (proj2
            (hide_shifts_keys_of_modals_above stacked_panel
               [("i", ModalPanel.spread sample_config (element_named "A"))]
               [("4i", ModalPanel.spread sample_config (element_named "C"))]
               "9" (ModalPanel.spread sample_config (element_named "B"))
               eq_refl _)).
  apply (bool_decide_unpack _). vm_compute. exact I.
Defined.

(** ** The popover's style *)

(** X9.  [getComponentStyle] splits the themed style without losing or
    duplicating anything: the three indicator keys never reach the
    container, every other key reaches it with its value, the indicator
    gets the values of the three keys (absent ones stay absent), and the
    child style is empty. *)
Theorem getComponentStyle_splits_indicator {V : Type} (source : gmap string V) :
  let result := PopoverStyle.getComponentStyle source in
  (forall k, k ∈ PopoverStyle.indicator_keys ->
     PopoverStyle.container result !! k = None) /\
  (forall k, k ∉ PopoverStyle.indicator_keys ->
     PopoverStyle.container result !! k = source !! k) /\
  PopoverStyle.width (PopoverStyle.indicator result) = source !! "indicatorWidth" /\
  PopoverStyle.height (PopoverStyle.indicator result) = source !! "indicatorHeight" /\
  PopoverStyle.backgroundColor (PopoverStyle.indicator result)
    = source !! "indicatorBackgroundColor" /\
  PopoverStyle.child result = ∅.
Proof.
  cbv zeta. unfold PopoverStyle.getComponentStyle, PopoverStyle.indicator_keys.
  cbn [PopoverStyle.container PopoverStyle.indicator PopoverStyle.child
       PopoverStyle.width PopoverStyle.height PopoverStyle.backgroundColor].
  split; [|split; [|by repeat split]].
  - intros k Hk. rewrite !lookup_delete.
    repeat (apply elem_of_cons in Hk as [->|Hk]);
      [| |
       |by apply elem_of_nil in Hk];
      repeat case_decide; done.
  - intros k Hk. rewrite !not_elem_of_cons in Hk.
    destruct Hk as (H1 & H2 & H3 & _).
    by rewrite !lookup_delete_ne.
Qed.

(** ** The pager's gestures and pages *)
Section PagerGestureFacts.
Import ViewPager ViewPagerChildren.
Local Open Scope Q_scope.

Lemma Math_sign_pos (q : Q) : 0 < q -> Math_sign q = 1%Z.
Proof.
  unfold Qlt, Math_sign. simpl. rewrite Z.mul_1_r. apply Z.sgn_pos.
Qed.

Lemma Math_sign_neg (q : Q) : q < 0 -> Math_sign q = (-1)%Z.
Proof.
  unfold Qlt, Math_sign. simpl. rewrite Z.mul_1_r. apply Z.sgn_neg.
Qed.

Lemma Qabs_pos_cases (q : Q) : 0 < Qabs q -> 0 < q \/ q < 0.
Proof.
  intros Habs. destruct (Q_dec 0 q) as [[Hlt|Hgt]|Heq]; [by left|by right|].
  rewrite <- Heq in Habs. by apply Qlt_irrefl in Habs.
Qed.

Lemma horizontal_move_nonzero (state : PanResponderGestureState) :
  Qabs (dy state) < Qabs (dx state) -> 0 < Qabs (dx state).
Proof.
  intros Hlt. eapply Qle_lt_trans; [apply Qabs_nonneg|exact Hlt].
Qed.

(** A gesture is taken exactly when it is more horizontal than vertical
    and the page it heads for exists: the previous page for a move to the
    right, the next page for a move to the left. *)
Lemma onMoveShouldSetPanResponder_iff
    (state : PanResponderGestureState) (this : Instance) :
  onMoveShouldSetPanResponder state this = true <->
  Qabs (dy state) < Qabs (dx state) /\
  ((0 < dx state /\
    (1 <= selectedIndex (pager this) <= getChildCount this)%Z) \/
   (dx state < 0 /\
    (-1 <= selectedIndex (pager this) < getChildCount this - 1)%Z)).
Proof.
  unfold onMoveShouldSetPanResponder.
  pose proof (Qlt_bool_iff 0 (Qabs (dx state))) as Hnz.
  pose proof (Qlt_bool_iff (Qabs (dy state)) (Qabs (dx state))) as Hhor.
  destruct (Qlt_bool 0 (Qabs (dx state)));
    destruct (Qlt_bool (Qabs (dy state)) (Qabs (dx state))); cbn [andb].
  - rewrite andb_true_iff, Z.leb_le, Z.ltb_lt.
    assert (Qabs (dy state) < Qabs (dx state)) as Hlt by by apply Hhor.
    destruct (Qabs_pos_cases (dx state)) as [Hpos|Hneg]; [by apply Hnz| |].
    + rewrite (Math_sign_pos _ Hpos). split.
      * intros [H1 H2]. split; [done|]. left. split; [done|lia].
      * intros [_ [[_ H]|[Hneg _]]]; [lia|].
        exfalso. apply (Qlt_irrefl 0). by apply (Qlt_trans _ (dx state)).
    + rewrite (Math_sign_neg _ Hneg). split.
      * intros [H1 H2]. split; [done|]. right. split; [done|lia].
      * intros [_ [[Hpos _]|[_ H]]]; [|lia].
        exfalso. apply (Qlt_irrefl 0). by apply (Qlt_trans _ (dx state)).
  - split; [done|]. intros [Hlt _]. apply Hhor in Hlt. discriminate.
  - split; [done|]. intros [Hlt _].
    apply horizontal_move_nonzero in Hlt. apply Hnz in Hlt. discriminate.
  - split; [done|]. intros [Hlt _]. apply Hhor in Hlt. discriminate.
Qed.

Lemma release_index_cases (state : PanResponderGestureState) (p : ViewPager) :
  index (release_params state p) =
  if release_flips state p
  then if Qlt_bool 0 (dx state)
       then (selectedIndex p - 1)%Z else (selectedIndex p + 1)%Z
  else selectedIndex p.
Proof.
  unfold release_params.
  by destruct (release_flips state p), (Qlt_bool 0 (dx state)).
Qed.
End PagerGestureFacts.

(** X10.  [onMoveShouldSetPanResponder] takes a gesture exactly when it is
    more horizontal than vertical and the page it heads for exists: the
    previous page for a move to the right, the next page for a move to the
    left.  (The separate test [|dx| > 0] adds nothing.) *)
Theorem onMoveShouldSetPanResponder_characterised
    (state : ViewPager.PanResponderGestureState)
    (this : ViewPagerChildren.Instance) :
  ViewPagerChildren.onMoveShouldSetPanResponder state this = true <->
  (Qabs (ViewPager.dy state) < Qabs (ViewPager.dx state))%Q /\
  (((0 < ViewPager.dx state)%Q /\
    (1 <= ViewPager.selectedIndex (ViewPagerChildren.pager this)
       <= ViewPagerChildren.getChildCount this)%Z) \/
   ((ViewPager.dx state < 0)%Q /\
    (-1 <= ViewPager.selectedIndex (ViewPagerChildren.pager this)
        < ViewPagerChildren.getChildCount this - 1)%Z)).
Proof. apply onMoveShouldSetPanResponder_iff. Qed.

(** X11.  At the ends the pager lets the gesture go: on the first page a
    move to the right is not taken, on the last page a move to the left is
    not taken, and a pager on page 0 with at most one child takes no
    gesture at all. *)
Theorem onMoveShouldSetPanResponder_rejects_at_the_ends
    (state : ViewPager.PanResponderGestureState)
    (this : ViewPagerChildren.Instance) :
  let selected := ViewPager.selectedIndex (ViewPagerChildren.pager this) in
  let count := ViewPagerChildren.getChildCount this in
  (selected = 0%Z -> (0 < ViewPager.dx state)%Q ->
   ViewPagerChildren.onMoveShouldSetPanResponder state this = false) /\
  (selected = (count - 1)%Z -> (ViewPager.dx state < 0)%Q ->
   ViewPagerChildren.onMoveShouldSetPanResponder state this = false) /\
  (selected = 0%Z -> (count <= 1)%Z ->
   ViewPagerChildren.onMoveShouldSetPanResponder state this = false).
Proof.
  cbv zeta.
  pose proof (onMoveShouldSetPanResponder_iff state this) as Hiff.
  destruct (ViewPagerChildren.onMoveShouldSetPanResponder state this);
    [|by repeat split].
  destruct (proj1 Hiff eq_refl) as [_ [[Hpos Hr]|[Hneg Hr]]].
  - split; [intros; lia|]. split; [|intros; lia].
    intros _ Hneg. exfalso. apply (Qlt_irrefl 0).
    by apply (Qlt_trans _ (ViewPager.dx state)).
  - split; [|split; intros; lia].
    intros _ Hpos. exfalso. apply (Qlt_irrefl 0).
    by apply (Qlt_trans _ (ViewPager.dx state)).
Qed.

(** X12.  A gesture that was taken and is released as it stands lands on a
    page: with the selected page in range, the index that
    [onPanResponderRelease] scrolls to is in range too. *)
Theorem release_of_taken_gesture_stays_in_range
    (state : ViewPager.PanResponderGestureState)
    (this : ViewPagerChildren.Instance) :
  ViewPagerChildren.onMoveShouldSetPanResponder state this = true ->
  (0 <= ViewPager.selectedIndex (ViewPagerChildren.pager this)
     < ViewPagerChildren.getChildCount this)%Z ->
  (0 <= ViewPager.index
          (ViewPager.release_params state (ViewPagerChildren.pager this))
     < ViewPagerChildren.getChildCount this)%Z.
Proof.
  intros Htaken Hsel. rewrite release_index_cases.
  apply onMoveShouldSetPanResponder_iff in Htaken as [_ Hdir].
  destruct (ViewPager.release_flips state _); [|done].
  pose proof (Qlt_bool_iff 0 (ViewPager.dx state)) as Hright.
  destruct (ViewPager.Qlt_bool 0 (ViewPager.dx state)).
  - destruct Hdir as [[_ Hr]|[Hneg _]]; [lia|].
    exfalso. apply (Qlt_irrefl 0).
    apply (Qlt_trans _ (ViewPager.dx state)); [by apply Hright|done].
  - destruct Hdir as [[Hpos _]|[_ Hr]]; [|lia].
    apply Hright in Hpos. discriminate.
Qed.

Lemma release_of_taken_gesture_stays_in_range_witness :
  (0 <= ViewPager.index
          (ViewPager.release_params fast_swipe_right
             (ViewPagerChildren.pager sample_pages))
     < ViewPagerChildren.getChildCount sample_pages)%Z.
Proof.
  apply (release_of_taken_gesture_stays_in_range fast_swipe_right sample_pages).
  - reflexivity.
  - vm_compute. split; [discriminate|reflexivity].
Defined.

(** X13.  The release handler itself checks no bound.  On the last page a
    gesture that starts to the right is taken; if it is let go after
    turning back (not to the right any more, and fast or long enough),
    the pager scrolls to the index one past the last page. *)
Theorem release_after_turning_back_overshoots
    (moving released : ViewPager.PanResponderGestureState)
    (this : ViewPagerChildren.Instance) :
  let selected := ViewPager.selectedIndex (ViewPagerChildren.pager this) in
  let count := ViewPagerChildren.getChildCount this in
  selected = (count - 1)%Z ->
  (1 <= selected)%Z ->
  (0 < ViewPager.dx moving)%Q ->
  (Qabs (ViewPager.dy moving) < Qabs (ViewPager.dx moving))%Q ->
  ~ (0 < ViewPager.dx released)%Q ->
  ((1 # 2) <= Qabs (ViewPager.vx released) \/
   (1 # 2) * ViewPager.contentWidth (ViewPagerChildren.pager this)
     <= Qabs (ViewPager.dx released))%Q ->
  ViewPagerChildren.onMoveShouldSetPanResponder moving this = true /\
  ViewPager.index
    (ViewPager.release_params released (ViewPagerChildren.pager this))
  = count.
Proof.
  cbv zeta. intros Hlast Hsel Hpos Hhor Hback Hflip. split.
  - apply onMoveShouldSetPanResponder_iff. split; [done|]. left. split; [done|lia].
  - rewrite release_index_cases.
    apply release_flips_iff in Hflip. rewrite Hflip.
    pose proof (Qlt_bool_iff 0 (ViewPager.dx released)) as Hright.
    destruct (ViewPager.Qlt_bool 0 (ViewPager.dx released)); [|lia].
    destruct Hback. by apply Hright.
Qed.

Lemma release_after_turning_back_overshoots_witness :
  ViewPagerChildren.onMoveShouldSetPanResponder fast_swipe_right sample_pages
    = true /\
  ViewPager.index
    (ViewPager.release_params long_drag_left
       (ViewPagerChildren.pager sample_pages))
  = 3%Z.
Proof.
  apply (release_after_turning_back_overshoots fast_swipe_right long_drag_left
           sample_pages).
  - reflexivity.
  - vm_compute. discriminate.
  - vm_compute. reflexivity.
  - vm_compute. reflexivity.
  - vm_compute. discriminate.
  - right. vm_compute. discriminate.
Defined.

(** X14.  Lazy loading never changes the number of pages: there is one
    page container per child, in the children's order, holding the child
    when [shouldLoadComponent] accepts its index and nothing otherwise. *)
Theorem renderComponentChildren_one_container_per_child
    (this : ViewPagerChildren.Instance) :
  length (ViewPagerChildren.renderComponentChildren this)
    = length (ViewPagerChildren.children this) /\
  (forall i source,
     ViewPagerChildren.children this !! i = Some source ->
     ViewPagerChildren.renderComponentChildren this !! i
     = Some (if ViewPagerChildren.shouldLoadComponent this i
             then Some source else None)).
Proof.
  unfold ViewPagerChildren.renderComponentChildren. split.
  - apply map_indexed_length.
  - intros i source Hi. rewrite map_indexed_lookup, Hi. reflexivity.
Qed.

(** ** The toggle *)
Section ToggleFacts.
Import Toggle.
Local Open Scope Q_scope.

Lemma release_toggles_iff (gestureState : ViewPager.PanResponderGestureState)
    (this : ToggleComponent) :
  release_toggles gestureState this = true <->
  (checked (props this) = false /\ -5 < ViewPager.dx gestureState) \/
  (checked (props this) = true /\ ViewPager.dx gestureState < 5).
Proof.
  unfold release_toggles.
  rewrite orb_true_iff, !andb_true_iff, negb_true_iff, !Qlt_bool_iff. tauto.
Qed.

Lemma grant_disabled (this : ToggleComponent) :
  disabled (props this) = true -> onPanResponderGrant this = (this, []).
Proof. intros Hd. unfold onPanResponderGrant. by rewrite Hd. Qed.

Lemma release_disabled (gestureState : ViewPager.PanResponderGestureState)
    (this : ToggleComponent) :
  disabled (props this) = true ->
  onPanResponderRelease gestureState this = (this, release_tail this).
Proof. intros Hd. unfold onPanResponderRelease. by rewrite Hd. Qed.
End ToggleFacts.

(** X15.  A disabled toggle ignores the gestures of its pan responder.
    Over any run of grants and releases its state does not change, a grant
    issues nothing, a release issues only the thumb-width animation back
    to the themed width and the empty dispatch; so these handlers never
    start a thumb translation and never call [onChange]. *)
Theorem disabled_toggle_ignores_gestures
    (gestures : list Toggle.Gesture) (this : Toggle.ToggleComponent) :
  Toggle.disabled (Toggle.props this) = true ->
  Toggle.run_gestures gestures this
  = (this,
     flat_map (fun g => match g with
                        | Toggle.Grant => []
                        | Toggle.Release _ => release_tail this
                        end) gestures) /\
  Forall (fun c => Toggle.starts_thumb_translation c = false
                   /\ Toggle.calls_onChange c = false)
    (snd (Toggle.run_gestures gestures this)).
Proof.
  intros Hd.
  assert (Toggle.run_gestures gestures this
          = (this,
             flat_map (fun g => match g with
                                | Toggle.Grant => []
                                | Toggle.Release _ => release_tail this
                                end) gestures)) as Hrun.
  { induction gestures as [|g gestures IH]; [done|].
    cbn [Toggle.run_gestures flat_map].
    destruct g as [|gestureState]; cbn [Toggle.run_gesture].
    - rewrite (grant_disabled this Hd). by rewrite IH.
    - rewrite (release_disabled gestureState this Hd). by rewrite IH. }
  split; [exact Hrun|]. rewrite Hrun. cbn [snd].
  clear Hrun. induction gestures as [|g gestures IH]; [constructor|].
  cbn [flat_map]. apply Forall_app. split; [|exact IH].
  destruct g; [constructor|].
  unfold release_tail. repeat constructor.
Qed.

Lemma disabled_toggle_ignores_gestures_witness :
  Toggle.run_gestures [Toggle.Grant; Toggle.Release tap] (sample_toggle true)
  = (sample_toggle true, release_tail (sample_toggle true)).
Proof.
  apply (proj1 (disabled_toggle_ignores_gestures
                  [Toggle.Grant; Toggle.Release tap] (sample_toggle true)
                  eq_refl)).
Defined.

(** X16.  On an enabled toggle, a release that has not gone 5 or more
    against the thumb (unchecked and [dx > -5], or checked and [dx < 5];
    a plain tap in particular) starts the thumb translation towards the
    other side and marks it active.  When that animation ends, its
    callback clears the mark, resets the translation to 0 and calls
    [onChange], if there is one, with the negation of [checked] as the
    props then are, not as they were at the release. *)
Theorem release_toggles_and_reports_the_change
    (gestureState : ViewPager.PanResponderGestureState)
    (this : Toggle.ToggleComponent) :
  Toggle.disabled (Toggle.props this) = false ->
  ((Toggle.checked (Toggle.props this) = false
    /\ (-5 < ViewPager.dx gestureState)%Q) \/
   (Toggle.checked (Toggle.props this) = true
    /\ (ViewPager.dx gestureState < 5)%Q)) ->
  let offset := Toggle.offsetValue (Toggle.themedStyle (Toggle.props this)) in
  let callback :=
    Toggle.end_thumbTranslate
      (Toggle.toggle_finish Toggle.this_onPress
         (Toggle.checked (Toggle.props this))) in
  let released := Toggle.onPanResponderRelease gestureState this in
  fst released = Toggle.with_active true this /\
  snd released
  = Toggle.timing_start Toggle.thumbTranslateAnimation
      (if Toggle.checked (Toggle.props this) then (- offset)%Q else offset)
      150 callback
    :: Toggle.timing_start Toggle.thumbWidthAnimation
         (Toggle.thumbWidth (Toggle.themedStyle (Toggle.props this))) 150
         (Toggle.end_plain Toggle.void_null)
    :: release_tail this /\
  (forall later : Toggle.ToggleProps,
     Toggle.run_EndCallback callback (Toggle.with_props later (fst released))
     = (Toggle.with_active false (Toggle.with_props later (fst released)),
        Toggle.setValue Toggle.thumbTranslateAnimation 0
        :: match Toggle.onChange later with
           | Some f => [Toggle.call_onChange f (negb (Toggle.checked later))]
           | None => []
           end)).
Proof.
  intros Hd Hcond. cbv zeta.
  apply release_toggles_iff in Hcond.
  unfold Toggle.onPanResponderRelease. rewrite Hd, Hcond. cbn [negb].
  unfold Toggle.toggle, Toggle.animateThumbTranslate. cbn [fst snd].
  split; [reflexivity|]. split; [reflexivity|].
  intros later. cbn [Toggle.run_EndCallback Toggle.run_VoidCallback
                     Toggle.run_NextValueCallback].
  unfold Toggle.onPress. reflexivity.
Qed.

Lemma release_toggles_and_reports_the_change_witness :
  Toggle.run_EndCallback
    (Toggle.end_thumbTranslate (Toggle.toggle_finish Toggle.this_onPress false))
    (Toggle.with_props (sample_toggle_props false)
       (fst (Toggle.onPanResponderRelease tap (sample_toggle false))))
  = (Toggle.with_active false
       (Toggle.with_props (sample_toggle_props false)
          (fst (Toggle.onPanResponderRelease tap (sample_toggle false)))),
     [Toggle.setValue Toggle.thumbTranslateAnimation 0;
      Toggle.call_onChange 3 true]).
Proof.
  refine (proj2 (proj2
            (release_toggles_and_reports_the_change tap (sample_toggle false)
               eq_refl _)) (sample_toggle_props false)).
  left. split; [reflexivity|]. vm_compute. reflexivity.
Defined.

(** X17.  On an enabled toggle, a release that has gone 5 or more against
    the thumb (unchecked and [dx <= -5], or checked and [dx >= 5]) calls
    the change off: the state is unchanged, the ellipse is animated back
    to its resting scale, no thumb translation is started, and none of
    the callbacks it hands out does anything when run. *)
Theorem release_against_the_thumb_cancels
    (gestureState : ViewPager.PanResponderGestureState)
    (this : Toggle.ToggleComponent) :
  Toggle.disabled (Toggle.props this) = false ->
  ((Toggle.checked (Toggle.props this) = false
    /\ (ViewPager.dx gestureState <= -5)%Q) \/
   (Toggle.checked (Toggle.props this) = true
    /\ (5 <= ViewPager.dx gestureState)%Q)) ->
  Toggle.onPanResponderRelease gestureState this
  = (this,
     Toggle.timing_start Toggle.ellipseScaleAnimation
       (if Toggle.checked (Toggle.props this) then (1 # 100)%Q else 1%Q) 200
       (Toggle.end_plain Toggle.void_null)
     :: release_tail this) /\
  Forall (fun c => Toggle.starts_thumb_translation c = false
                   /\ Toggle.calls_onChange c = false)
    (snd (Toggle.onPanResponderRelease gestureState this)) /\
  (forall value toValue duration callback later,
     Toggle.timing_start value toValue duration callback
       ∈ snd (Toggle.onPanResponderRelease gestureState this) ->
     snd (Toggle.run_EndCallback callback later) = []).
Proof.
  intros Hd Hcond.
  assert (Toggle.release_toggles gestureState this = false) as Hno.
  { destruct (Toggle.release_toggles gestureState this) eqn:Hyes; [|done].
    apply release_toggles_iff in Hyes.
    destruct Hcond as [[Hc Hle]|[Hc Hle]], Hyes as [[Hc' Hlt]|[Hc' Hlt]];
      try congruence; exfalso; by apply (Qlt_not_le _ _ Hlt). }
  assert (Toggle.onPanResponderRelease gestureState this
          = (this,
             Toggle.timing_start Toggle.ellipseScaleAnimation
               (if Toggle.checked (Toggle.props this) then (1 # 100)%Q else 1%Q)
               200 (Toggle.end_plain Toggle.void_null)
             :: release_tail this)) as Hrun.
  { unfold Toggle.onPanResponderRelease. by rewrite Hd, Hno. }
  split; [exact Hrun|]. rewrite Hrun. cbn [snd]. split.
  - unfold release_tail. repeat constructor.
  - intros value toValue duration callback later Hin.
    unfold release_tail in Hin.
    repeat (apply elem_of_cons in Hin as [Hin|Hin]);
      try (by apply elem_of_nil in Hin); try discriminate;
      injection Hin as -> -> -> ->; reflexivity.
Qed.

Lemma release_against_the_thumb_cancels_witness :
  Toggle.onPanResponderRelease long_drag_left (sample_toggle false)
  = (sample_toggle false,
     Toggle.timing_start Toggle.ellipseScaleAnimation 1 200
       (Toggle.end_plain Toggle.void_null)
     :: release_tail (sample_toggle false)).
Proof.
  refine (proj1 (release_against_the_thumb_cancels long_drag_left
                   (sample_toggle false) eq_refl _)).
  left. split; [reflexivity|]. vm_compute. discriminate.
Defined.
